(** * bitstamp-go: market-data decoding and the streaming client

    A shallow embedding of the four source files of the package:

    - [bitstamp.go]: the REST client, the order-book and trade decoders
      and the push-service variant of [SubscribeOrderBook];
    - [part_000]: the same file with the checked field lookups in
      [parseOrderBook] and the [WsClient] variant of [SubscribeOrderBook];
    - [websocket.go]: [WsClient] with the buffered error queue, the
      retry delay and the non-blocking [Close];
    - [part_001]: [WsClient] with the unbuffered error queue and the
      blocking [Close].

    Go values are modelled as the code has them: a function that returns
    [(v, err)] returns a pair whose second component is an [option error]
    ([None] is the nil error), a [*T] that may be nil is an [option T], a
    failed unchecked type assertion or an index out of range is a panic.
    Channels are bounded buffers; a goroutine is a step function whose
    blocking points are explicit outcomes. *)

From Stdlib Require Import ZArith String Ascii Lia.
From Stdlib Require Import Floats.PrimFloat Floats.SpecFloat Floats.FloatOps.
From stdpp Require Import gmap strings list.

Set Warnings "-register-all".

Local Open Scope string_scope.
Local Open Scope list_scope.
Local Open Scope Z_scope.

(** ** Panics and the panic monad *)

(** The run-time panics the package can raise. *)
Inductive panic : Type :=
| InterfaceConversion (wanted : string)
| IndexOutOfRange (index len : nat)
| NilDereference.

(** A Go computation returns normally or panics. *)
Inductive go (A : Type) : Type :=
| Returns (a : A)
| Panics (p : panic).

Arguments Returns {A} a.
Arguments Panics {A} p.

#[global] Instance go_ret : MRet go := fun A a => Returns a.

#[global] Instance go_bind : MBind go := fun A B f m =>
  match m with
  | Returns a => f a
  | Panics p => Panics p
  end.

Definition panicked {A} (m : go A) : bool :=
  match m with
  | Panics _ => true
  | Returns _ => false
  end.

(** ** Errors *)

Inductive NumErr : Type := ErrSyntax | ErrRange.

(** The error values that flow through the package.  [errors_New] and
    [errors_Wrap] are the values of [github.com/pkg/errors];
    [fmt_wrapError] is what [fmt.Errorf] makes of a format that ends in
    [%w]; [NumError] is [*strconv.NumError]; [LibError] stands for an error raised by the
    JSON, HTTP or socket library, of which only the message and the
    optional [Temporary() bool] method are observed. *)
Inductive error : Type :=
| errors_New (msg : string)
| errors_Wrap (cause : error) (msg : string)
| fmt_wrapError (prefix : string) (cause : error)
| NumError (Func Num : string) (Err : NumErr)
| LibError (msg : string) (temporary : option bool).

(** [github.com/pkg/errors]: [New] makes an error from a message;
    [Wrap(err, msg)] is nil when [err] is nil and otherwise [err]
    annotated with [msg]. *)
Module errors.

Definition New (msg : string) : option error := Some (errors_New msg).

Definition Wrap (err : option error) (msg : string) : option error :=
  match err with
  | None => None
  | Some e => Some (errors_Wrap e msg)
  end.

End errors.

Definition dquote : string := String (ascii_of_nat 34) EmptyString.
Definition backslash : string := String (ascii_of_nat 92) EmptyString.

Definition hex_digit (n : nat) : string :=
  match List.nth_error (list_ascii_of_string "0123456789abcdef") n with
  | Some c => String c EmptyString
  | None => "?"
  end.

(** One byte of [strconv.Quote]'s output (ASCII; bytes from 128 on are
    copied, as Go does for printable runes). *)
Definition quote_byte (c : ascii) : string :=
  let n := nat_of_ascii c in
  if Nat.eqb n 34 then backslash +:+ dquote
  else if Nat.eqb n 92 then backslash +:+ backslash
  else if Nat.eqb n 7 then backslash +:+ "a"
  else if Nat.eqb n 8 then backslash +:+ "b"
  else if Nat.eqb n 12 then backslash +:+ "f"
  else if Nat.eqb n 10 then backslash +:+ "n"
  else if Nat.eqb n 13 then backslash +:+ "r"
  else if Nat.eqb n 9 then backslash +:+ "t"
  else if Nat.eqb n 11 then backslash +:+ "v"
  else if (Nat.ltb n 32 || Nat.eqb n 127)%bool
       then backslash +:+ "x" +:+ hex_digit (n / 16) +:+ hex_digit (n mod 16)
  else String c EmptyString.

Fixpoint quote_bytes (s : string) : string :=
  match s with
  | EmptyString => EmptyString
  | String c r => quote_byte c +:+ quote_bytes r
  end.

Definition Quote (s : string) : string := dquote +:+ quote_bytes s +:+ dquote.

Definition NumErr_text (e : NumErr) : string :=
  match e with
  | ErrSyntax => "invalid syntax"
  | ErrRange => "value out of range"
  end.

(** The [Error()] method. *)
Fixpoint Error (e : error) : string :=
  match e with
  | errors_New msg => msg
  | errors_Wrap cause msg => msg +:+ ": " +:+ Error cause
  | fmt_wrapError prefix cause => prefix +:+ Error cause
  | NumError f n err =>
      "strconv." +:+ f +:+ ": parsing " +:+ Quote n +:+ ": " +:+ NumErr_text err
  | LibError msg _ => msg
  end.

(** [errors.Cause]: the innermost error under the wrappers. *)
Fixpoint Cause (e : error) : error :=
  match e with
  | errors_Wrap cause _ => Cause cause
  | _ => e
  end.

(** The [errTemporary] interface of [websocket.go]: [Some b] when the
    error has a [Temporary()] method that answers [b]. *)
Definition Temporary (e : error) : option bool :=
  match e with
  | LibError _ t => t
  | _ => None
  end.

(** ** Time *)

Module time.

(** A [time.Time] as a wall-clock reading: seconds since the epoch and
    nanoseconds within the second. *)
Record Time : Type := mkTime { sec : Z; nsec : Z }.

(** [time.Unix(sec, nsec)]. *)
Definition Unix (s n : Z) : Time :=
  {| sec := s + n / 1000000000; nsec := n mod 1000000000 |}.

(** The method [t.Unix()]. *)
Definition Time_Unix (t : Time) : Z := sec t.

(** The method [t.Before(u)]. *)
Definition Before (t u : Time) : Prop :=
  sec t < sec u \/ (sec t = sec u /\ nsec t < nsec u).

(** The method [t.After(u)]. *)
Definition After (t u : Time) : Prop := Before u t.

(** The zero [time.Time] (January 1 of year 1, UTC). *)
Definition zero : Time := {| sec := -62135596800; nsec := 0 |}.

(** [time.Duration] counts nanoseconds. *)
Definition Millisecond : Z := 1000000.

End time.

(** ** [strconv.ParseInt(s, 10, 64)] *)

Module strconv.

Definition is_digit (c : ascii) : bool :=
  (Nat.leb 48 (nat_of_ascii c) && Nat.leb (nat_of_ascii c) 57)%bool.

Definition digit_value (c : ascii) : Z := Z.of_nat (nat_of_ascii c) - 48.

Definition maxUint64 : Z := 2 ^ 64 - 1.

(** The digit loop of [ParseUint] in base 10: a byte that is no digit is
    a syntax error, an overflow is a range error, whichever comes
    first. *)
Fixpoint ParseUint_loop (s : string) (n : Z) : Z * option NumErr :=
  match s with
  | EmptyString => (n, None)
  | String c r =>
      if negb (is_digit c) then (0, Some ErrSyntax)
      else if maxUint64 / 10 + 1 <=? n then (maxUint64, Some ErrRange)
      else
        let n1 := n * 10 + digit_value c in
        if maxUint64 <? n1 then (maxUint64, Some ErrRange)
        else ParseUint_loop r n1
  end.

Definition ParseUint (s : string) : Z * option NumErr :=
  match s with
  | EmptyString => (0, Some ErrSyntax)
  | _ => ParseUint_loop s 0
  end.

Definition ParseInt (s : string) : Z * option error :=
  match s with
  | EmptyString => (0, Some (NumError "ParseInt" s ErrSyntax))
  | String c r =>
      let neg := Ascii.eqb c "-" in
      let body := if (Ascii.eqb c "+" || Ascii.eqb c "-")%bool then r else s in
      match ParseUint body with
      | (_, Some ErrSyntax) => (0, Some (NumError "ParseInt" s ErrSyntax))
      | (un, _) =>
          let cutoff := 2 ^ 63 in
          if (negb neg && (cutoff <=? un))%bool
          then (cutoff - 1, Some (NumError "ParseInt" s ErrRange))
          else if (neg && (cutoff <? un))%bool
          then (- cutoff, Some (NumError "ParseInt" s ErrRange))
          else (if neg then - un else un, None)
      end
  end.

End strconv.

(** ** Decoded JSON *)

(** What [json.Unmarshal] stores in an [interface{}]: nil, bool,
    float64, string, [[]interface{}] or [map[string]interface{}]. *)
Inductive JSON : Type :=
| JNull
| JBool (b : bool)
| JNumber (f : float)
| JString (s : string)
| JArray (l : list JSON)
| JObject (m : gmap string JSON).

(** [m[key]] on a [map[string]interface{}]: the nil interface when the
    key is absent. *)
Definition index_map (m : gmap string JSON) (key : string) : JSON :=
  default JNull (m !! key).

(** The unchecked assertions [x.([]interface{})], [x.(string)] and
    [x.(map[string]interface{})]. *)
Definition assert_slice (x : JSON) : go (list JSON) :=
  match x with
  | JArray l => Returns l
  | _ => Panics (InterfaceConversion "[]interface {}")
  end.

Definition assert_string (x : JSON) : go string :=
  match x with
  | JString s => Returns s
  | _ => Panics (InterfaceConversion "string")
  end.

Definition assert_map (x : JSON) : go (gmap string JSON) :=
  match x with
  | JObject m => Returns m
  | _ => Panics (InterfaceConversion "map[string]interface {}")
  end.

(** [arr[i]] on a slice. *)
Definition index_slice (arr : list JSON) (i : nat) : go JSON :=
  match arr !! i with
  | Some x => Returns x
  | None => Panics (IndexOutOfRange i (length arr))
  end.

(** ** The data model of [bitstamp.go] *)

(** [Order] is a (price, amount) pair. *)
Record Order : Type := mkOrder { Price : float; Amount : float }.

(** [OrderBook]. *)
Record OrderBook : Type := mkOrderBook {
  Time : time.Time;
  Asks : list Order;
  Bids : list Order
}.

(** [Trade]; the fields are [Time], [ID], [Price] and [Amount] in the
    source. *)
Record Trade : Type := mkTrade {
  Trade_Time : time.Time;
  ID : string;
  Trade_Price : float;
  Trade_Amount : float
}.

(** The zero value of [Trade], as [make([]Trade, n)] fills a slice. *)
Definition zero_Trade : Trade :=
  {| Trade_Time := time.zero; ID := EmptyString;
     Trade_Price := 0%float; Trade_Amount := 0%float |}.

(** [WsEvent] of [websocket.go]; [Data] is a [json.RawMessage]. *)
Record WsEvent : Type := mkWsEvent {
  Event : string;
  Channel : string;
  Data : string
}.

(** The response of [http.Get]: what [ioutil.ReadAll(resp.Body)]
    returns. *)
Record Response : Type := mkResponse { ReadAll_Body : string * option error }.

(** ** The library functions the package calls

    They are not part of the package; every result below holds for any
    implementation of them.  [reference_lib] further down is an
    executable one for the examples. *)
Class GoLib : Type := {
  (** [strconv.ParseFloat(s, 64)] *)
  ParseFloat : string -> float * option error;
  (** [json.Unmarshal(data, &m)] into a fresh [map[string]interface{}] *)
  Unmarshal_map : string -> gmap string JSON * option error;
  (** [json.Unmarshal(body, &s)] into a nil [[]interface{}] *)
  Unmarshal_slice : string -> list JSON * option error;
  (** [json.Unmarshal(message, e)] into a fresh [WsEvent] *)
  Unmarshal_WsEvent : string -> WsEvent * option error;
  (** [json.Marshal(raw)] of a [json.RawMessage] *)
  Marshal_RawMessage : string -> string * option error;
  (** [http.Get(url)] *)
  http_Get : string -> Response * option error
}.

Definition API_URL : string := "https://www.bitstamp.net/api/v2".

Section Mapper.
Context `{GoLib}.

(** [api.get]. *)
Definition get (url : string) : string * option error :=
  match http_Get (API_URL +:+ url) with
  | (_, Some err) => (EmptyString, Some err)
  | (resp, None) => ReadAll_Body resp
  end.

(** The closure [parse] of [parseOrderBook] (the same text in
    [bitstamp.go] and [part_000]): the range loop over [arr], with
    [result] the slice built so far. *)
Fixpoint parse_range (arr : list JSON) (result : list Order)
  : go (list Order * option error) :=
  match arr with
  | [] => Returns (result, None)
  | elem :: arr' =>
      ord ← assert_slice elem;
      x0 ← index_slice ord 0;
      s0 ← assert_string x0;
      let '(price, err) := ParseFloat s0 in
      match err with
      | Some e => Returns ([], Some e)
      | None =>
          x1 ← index_slice ord 1;
          s1 ← assert_string x1;
          let '(amount, err) := ParseFloat s1 in
          match err with
          | Some e => Returns ([], Some e)
          | None =>
              parse_range arr' (result ++ [{| Price := price; Amount := amount |}])
          end
      end
  end.

Definition parse (arr : list JSON) : go (list Order * option error) :=
  parse_range arr [].

(** The timestamp lines of [parseOrderBook] (the same text in both
    files).  [now] is what [time.Now()] returns; [err] is the function's
    [err] variable on entry.  Either the function returns early with an
    error, or it goes on with [timestamp] and the current [err]. *)
Inductive timestamp_step : Type :=
| GoOn (timestamp : Z) (err : option error)
| ReturnErr (e : option error).

Definition read_timestamp (now : time.Time) (defaultstruct : gmap string JSON)
    (err : option error) : timestamp_step :=
  let timestamp := time.Time_Unix now in
  match defaultstruct !! "timestamp" with
  | Some timestampObj =>
      match timestampObj with
      | JString timestampStr =>
          let '(timestamp, err) := strconv.ParseInt timestampStr in
          match err with
          | Some e => ReturnErr (Some e)
          | None => GoOn timestamp err
          end
      | _ => ReturnErr (errors.New "invalid timestamp")
      end
  | None => GoOn timestamp err
  end.

(** The tail of [parseOrderBook] from the first call of [parse] on (the
    same text in both files). *)
Definition parse_sides (result : OrderBook) (bids asks : list JSON)
  : go (option OrderBook * option error) :=
  '(parsedBids, err) ← parse bids;
  match err with
  | Some e => Returns (None, errors.Wrap (Some e) "bids parsing error")
  | None =>
      let result := {| Time := Time result; Asks := Asks result; Bids := parsedBids |} in
      '(parsedAsks, err) ← parse asks;
      match err with
      | Some e => Returns (None, errors.Wrap (Some e) "asks parsing error")
      | None =>
          Returns (Some {| Time := Time result; Asks := parsedAsks; Bids := Bids result |},
                   None)
      end
  end.

End Mapper.

(** ** [formatTrades] (the same text in [bitstamp.go] and [part_000]) *)

Section Trades.
Context `{GoLib}.

(** The range loop of [formatTrades]: [i] is the index of the next
    element, [trades] the slice made before the loop. *)
Fixpoint formatTrades_range (i : nat) (rest : list JSON) (trades : list Trade)
  : go (list Trade * option error) :=
  match rest with
  | [] => Returns (trades, None)
  | _trade :: rest' =>
      _t ← assert_map _trade;
      priceStr ← assert_string (index_map _t "price");
      let '(price, err) := ParseFloat priceStr in
      match err with
      | Some e => Returns (trades, Some e)
      | None =>
          amountStr ← assert_string (index_map _t "amount");
          let '(amount, err) := ParseFloat amountStr in
          match err with
          | Some e => Returns (trades, Some e)
          | None =>
              timestampStr ← assert_string (index_map _t "date");
              let '(timestamp, err) := strconv.ParseInt timestampStr in
              match err with
              | Some e => Returns (trades, Some e)
              | None =>
                  let time := time.Unix timestamp 0 in
                  tid ← assert_string (index_map _t "tid");
                  let trade :=
                    {| Trade_Time := time; ID := tid;
                       Trade_Price := price; Trade_Amount := amount |} in
                  formatTrades_range (S i) rest' (<[i:=trade]> trades)
              end
          end
      end
  end.

Definition formatTrades (body : string) : go (list Trade * option error) :=
  let '(defaultstruct, err) := Unmarshal_slice body in
  match err with
  | Some e => Returns ([], Some e)
  | None =>
      formatTrades_range 0 defaultstruct
        (replicate (length defaultstruct) zero_Trade)
  end.

End Trades.

(** ** The feed ([SubscribeOrderBook]) *)

(** The calls [SubscribeOrderBook] makes on its streaming client. *)
Inductive client_call : Type :=
| c_Subscribe (channel : string)
| c_Bind (event : string)
| c_Unbind (event : string)
| c_Unsubscribe (channel : string)
| c_Close.

(** What the feed has done so far: the order books sent on [dataChan]
    (each send completes when the caller receives), the calls on the
    client, the lines printed. *)
Record feed : Type := mkFeed {
  dataChan : list OrderBook;
  calls : list client_call;
  stdout : list string
}.

Definition idle : feed := {| dataChan := []; calls := []; stdout := [] |}.

Definition send (ob : OrderBook) (s : feed) : feed :=
  {| dataChan := dataChan s ++ [ob]; calls := calls s; stdout := stdout s |}.

Definition call (c : client_call) (s : feed) : feed :=
  {| dataChan := dataChan s; calls := calls s ++ [c]; stdout := stdout s |}.

Definition println (line : string) (s : feed) : feed :=
  {| dataChan := dataChan s; calls := calls s; stdout := stdout s ++ [line] |}.

(** [*ob]. *)
Definition deref {A} (p : option A) : go A :=
  match p with
  | Some a => Returns a
  | None => Panics NilDereference
  end.

(** After an iteration of the [for] the feed is still in its loop or
    [SubscribeOrderBook] has returned [err]. *)
Inductive feed_state : Type :=
| Delivering (s : feed)
| Finished (s : feed) (err : option error).

Definition is_Close (c : client_call) : bool :=
  match c with
  | c_Close => true
  | _ => false
  end.

Definition Close_count (s : feed) : nat := length (List.filter is_Close (calls s)).

(** ** [bitstamp.go] *)

Module bitstamp_go.
Section WithLib.
Context `{GoLib}.

(** [parseOrderBook], with the unchecked assertions on [bids] and
    [asks]. *)
Definition parseOrderBook (now : time.Time) (data : string)
  : go (option OrderBook * option error) :=
  let '(defaultstruct, err) := Unmarshal_map data in
  match err with
  | Some e => Returns (None, Some e)
  | None =>
      match read_timestamp now defaultstruct err with
      | ReturnErr e => Returns (None, e)
      | GoOn timestamp err =>
          let result := {| Time := time.Unix timestamp 0; Asks := []; Bids := [] |} in
          bids ← assert_slice (index_map defaultstruct "bids");
          asks ← assert_slice (index_map defaultstruct "asks");
          parse_sides result bids asks
      end
  end.

(** [GetOrderBook]. *)
Definition GetOrderBook (now : time.Time) (symbol : string)
  : go (option OrderBook * option error) :=
  let '(body, err) := get ("/order_book/" +:+ symbol) in
  match err with
  | Some e => Returns (None, Some e)
  | None => parseOrderBook now body
  end.

(** What the [select] of [SubscribeOrderBook] finds ready: the data
    channel ([None] when it is closed; [now] is the clock at the decode)
    or the stop channel. *)
Inductive ready : Type :=
| FromData (now : time.Time) (dataEvt : option string)
| FromStop.

(** One iteration of the [for]. *)
Definition deliver_iter (r : ready) (s : feed) : go feed_state :=
  match r with
  | FromData now None =>
      Returns (Finished s (errors.New "websocket has been closed"))
  | FromData now (Some data) =>
      '(ob, err) ← parseOrderBook now data;
      match err with
      | None => ob ← deref ob; Returns (Delivering (send ob s))
      | Some _ => Returns (Delivering s)
      end
  | FromStop =>
      Returns (Finished
                 (call c_Close (call (c_Unsubscribe "order_book") (call (c_Unbind "data") s)))
                 None)
  end.

Fixpoint deliver (rs : list ready) (s : feed) : go feed_state :=
  match rs with
  | [] => Returns (Delivering s)
  | r :: rest =>
      o ← deliver_iter r s;
      match o with
      | Delivering s' => deliver rest s'
      | Finished _ _ => Returns o
      end
  end.

(** The errors of [pusher.NewClient], [Subscribe] and [Bind]. *)
Record setup : Type := mkSetup {
  NewClient_err : option error;
  Subscribe_err : option error;
  Bind_err : option error
}.

(** [SubscribeOrderBook] on the ready events [rs]. *)
Definition SubscribeOrderBook (env : setup) (symb : string) (rs : list ready)
  : go feed_state :=
  match NewClient_err env with
  | Some err => Returns (Finished idle (errors.Wrap (Some err) "client creation error"))
  | None =>
      let channel := "order_book" in
      let channel :=
        if negb (String.eqb symb "btcusd") then channel +:+ "_" +:+ symb else channel in
      let s := call (c_Subscribe channel) idle in
      match Subscribe_err env with
      | Some err => Returns (Finished s (errors.Wrap (Some err) "subscription error"))
      | None =>
          let s := call (c_Bind "data") s in
          match Bind_err env with
          | Some err => Returns (Finished s (errors.Wrap (Some err) "bind error"))
          | None => deliver rs s
          end
      end
  end.

(** [GetTrades]: the error of [api.get] is assigned and not looked
    at. *)
Definition GetTrades (symbol : string) : go (list Trade * option error) :=
  let '(body, err) := get ("/transactions/" +:+ symbol) in
  formatTrades body.

(** [GetTradesParams]; [QueryEscape] is [url.QueryEscape], through which
    [values.Encode()] passes the interval. *)
Definition GetTradesParams (QueryEscape : string -> string) (symbol interval : string)
  : go (list Trade * option error) :=
  let values := "time=" +:+ QueryEscape interval in
  let '(body, err) := get ("/transactions/" +:+ symbol +:+ "/?" +:+ values) in
  match err with
  | Some e => Returns ([], Some e)
  | None => formatTrades body
  end.

End WithLib.
End bitstamp_go.

(** ** [part_000] *)

Module part_000.
Section WithLib.
Context `{GoLib}.

(** [parseOrderBook], with the checked assertions on [bids] and [asks];
    [err] in the two [errors.Wrap] calls is the function's [err]
    variable. *)
Definition parseOrderBook (now : time.Time) (data : string)
  : go (option OrderBook * option error) :=
  let '(defaultstruct, err) := Unmarshal_map data in
  match err with
  | Some e => Returns (None, Some e)
  | None =>
      match read_timestamp now defaultstruct err with
      | ReturnErr e => Returns (None, e)
      | GoOn timestamp err =>
          let result := {| Time := time.Unix timestamp 0; Asks := []; Bids := [] |} in
          match index_map defaultstruct "bids" with
          | JArray bids =>
              match index_map defaultstruct "asks" with
              | JArray asks => parse_sides result bids asks
              | _ => Returns (None, errors.Wrap err "asks interface convert error")
              end
          | _ => Returns (None, errors.Wrap err "bids interface convert error")
          end
      end
  end.

(** [GetOrderBook]. *)
Definition GetOrderBook (now : time.Time) (symbol : string)
  : go (option OrderBook * option error) :=
  let '(body, err) := get ("/order_book/" +:+ symbol) in
  match err with
  | Some e => Returns (None, Some e)
  | None => parseOrderBook now body
  end.

(** What the [select] of [SubscribeOrderBook] finds ready: [c.Stream]
    ([now] is the clock at the decode), [stopChan] or [c.Errors]. *)
Inductive ready : Type :=
| FromStream (now : time.Time) (ev : WsEvent)
| FromStop
| FromErrors (err : error).

(** One iteration of the [for]. *)
Definition deliver_iter (symb : string) (r : ready) (s : feed) : go feed_state :=
  match r with
  | FromStream now ev =>
      if String.eqb (Event ev) "data" then
        let '(b, err) := Marshal_RawMessage (Data ev) in
        match err with
        | Some e =>
            Returns (Finished s (errors.Wrap (Some e) "error marshal data to byte"))
        | None =>
            '(ob, err) ← parseOrderBook now b;
            match err with
            | None => ob ← deref ob; Returns (Delivering (send ob s))
            | Some _ => Returns (Delivering s)
            end
        end
      else Returns (Delivering (println (Event ev) s))
  | FromStop => Returns (Delivering s)
  | FromErrors _ =>
      Returns (Finished
                 (call c_Close (call (c_Unsubscribe ("order_book_" +:+ symb)) s))
                 None)
  end.

Fixpoint deliver (symb : string) (rs : list ready) (s : feed) : go feed_state :=
  match rs with
  | [] => Returns (Delivering s)
  | r :: rest =>
      o ← deliver_iter symb r s;
      match o with
      | Delivering s' => deliver symb rest s'
      | Finished _ _ => Returns o
      end
  end.

(** [SubscribeOrderBook] on the ready events [rs]; [dial] is the error of
    [NewWsClient]. *)
Definition SubscribeOrderBook (dial : option error) (symb : string) (rs : list ready)
  : go feed_state :=
  match dial with
  | Some err => Returns (Finished idle (errors.Wrap (Some err) "error initializing client"))
  | None => deliver symb rs (call (c_Subscribe ("order_book_" +:+ symb)) idle)
  end.

(** [GetTrades]. *)
Definition GetTrades (symbol : string) : go (list Trade * option error) :=
  let '(body, err) := get ("/transactions/" +:+ symbol) in
  match err with
  | Some e => Returns ([], errors.Wrap (Some e) "get transactions error")
  | None => formatTrades body
  end.

(** [GetTradesParams]; [QueryEscape] is [url.QueryEscape], through which
    [values.Encode()] passes the interval. *)
Definition GetTradesParams (QueryEscape : string -> string) (symbol interval : string)
  : go (list Trade * option error) :=
  let values := "time=" +:+ QueryEscape interval in
  let '(body, err) := get ("/transactions/" +:+ symbol +:+ "/?" +:+ values) in
  match err with
  | Some e => Returns ([], Some e)
  | None => formatTrades body
  end.

End WithLib.
End part_000.

(** ** An executable instance of the library

    A reader for JSON text and for decimal floating-point literals, used
    to run the decoders on wire text.  The reader covers the JSON the
    exchange sends (objects, arrays, strings with the single-character
    escapes, decimal numbers, [true], [false], [null]); the float parser
    covers plain decimal literals and rounds to the nearest binary64,
    ties to even. *)

Module Reference.

Definition syntax_error (what : string) : option error :=
  Some (LibError what None).

(** *** Decimal literals *)

Fixpoint digits (s : string) (acc : Z) (count : Z) : Z * Z * string :=
  match s with
  | String c r =>
      if strconv.is_digit c
      then digits r (acc * 10 + strconv.digit_value c) (count + 1)
      else (acc, count, s)
  | EmptyString => (acc, count, s)
  end.

Definition strip_sign (s : string) : bool * string :=
  match s with
  | String c r =>
      if Ascii.eqb c "-" then (true, r)
      else if Ascii.eqb c "+" then (false, r)
      else (false, s)
  | EmptyString => (false, s)
  end.

(** [mantissa * 10 ^ exp10], or [None] when [s] is no decimal literal. *)
Definition read_decimal (s : string) : option (bool * Z * Z) :=
  let '(neg, s) := strip_sign s in
  let '(int_part, n_int, s) := digits s 0 0 in
  let '(mant, n_frac, s) :=
    match s with
    | String "." r => digits r int_part 0
    | _ => (int_part, 0, s)
    end in
  if n_int + n_frac =? 0 then None
  else
    match s with
    | EmptyString => Some (neg, mant, - n_frac)
    | String c r =>
        if (Ascii.eqb c "e" || Ascii.eqb c "E")%bool then
          let '(eneg, r) := strip_sign r in
          match digits r 0 0 with
          | (e, n_exp, EmptyString) =>
              if n_exp =? 0 then None
              else Some (neg, mant, (if eneg then - e else e) - n_frac)
          | _ => None
          end
        else None
    end.

(** The binary64 nearest to [mant * 10 ^ exp10]. *)
Definition round_decimal (neg : bool) (mant exp10 : Z) : spec_float :=
  if mant =? 0 then S754_zero neg
  else if 0 <=? exp10
  then binary_normalize prec emax
         ((if neg then - mant else mant) * 10 ^ exp10) 0 neg
  else
    let '(q, e, l) := SFdiv_core_binary prec emax mant 0 (10 ^ (- exp10)) 0 in
    binary_round_aux prec emax neg q e l.

Definition ParseFloat (s : string) : float * option error :=
  match read_decimal s with
  | None => (0%float, Some (NumError "ParseFloat" s ErrSyntax))
  | Some (neg, mant, exp10) =>
      match round_decimal neg mant exp10 with
      | S754_infinity sg =>
          (SF2Prim (S754_infinity sg), Some (NumError "ParseFloat" s ErrRange))
      | f => (SF2Prim f, None)
      end
  end.

(** *** JSON text *)

Definition is_space (c : ascii) : bool :=
  let n := nat_of_ascii c in
  (Nat.eqb n 32 || Nat.eqb n 9 || Nat.eqb n 10 || Nat.eqb n 13)%bool.

Fixpoint skip_ws (s : string) : string :=
  match s with
  | String c r => if is_space c then skip_ws r else s
  | EmptyString => s
  end.

Definition unescape (c : ascii) : option ascii :=
  let n := nat_of_ascii c in
  if (Nat.eqb n 34 || Nat.eqb n 92 || Nat.eqb n 47)%bool then Some c
  else if Ascii.eqb c "n" then Some (ascii_of_nat 10)
  else if Ascii.eqb c "t" then Some (ascii_of_nat 9)
  else if Ascii.eqb c "r" then Some (ascii_of_nat 13)
  else if Ascii.eqb c "b" then Some (ascii_of_nat 8)
  else if Ascii.eqb c "f" then Some (ascii_of_nat 12)
  else None.

(** The text of a string after its opening quote, and what follows the
    closing quote. *)
Fixpoint string_body (s : string) : option (string * string) :=
  match s with
  | EmptyString => None
  | String c r =>
      if Nat.eqb (nat_of_ascii c) 34 then Some (EmptyString, r)
      else if Nat.eqb (nat_of_ascii c) 92 then
        match r with
        | String d r' =>
            match unescape d, string_body r' with
            | Some d', Some (body, rest) => Some (String d' body, rest)
            | _, _ => None
            end
        | EmptyString => None
        end
      else if Nat.ltb (nat_of_ascii c) 32 then None
      else
        match string_body r with
        | Some (body, rest) => Some (String c body, rest)
        | None => None
        end
  end.

Definition is_number_char (c : ascii) : bool :=
  (strconv.is_digit c || Ascii.eqb c "-" || Ascii.eqb c "+" || Ascii.eqb c "."
   || Ascii.eqb c "e" || Ascii.eqb c "E")%bool.

Fixpoint number_text (s : string) : string * string :=
  match s with
  | String c r =>
      if is_number_char c
      then let '(t, rest) := number_text r in (String c t, rest)
      else (EmptyString, s)
  | EmptyString => (EmptyString, s)
  end.

Definition after_prefix (p s : string) : option string :=
  if String.prefix p s
  then Some (String.substring (String.length p) (String.length s - String.length p) s)
  else None.

Definition scalar (s : string) : option (JSON * string) :=
  match after_prefix "null" s, after_prefix "true" s, after_prefix "false" s with
  | Some r, _, _ => Some (JNull, r)
  | _, Some r, _ => Some (JBool true, r)
  | _, _, Some r => Some (JBool false, r)
  | _, _, _ =>
      let '(t, rest) := number_text s in
      match ParseFloat t with
      | (f, None) => Some (JNumber f, rest)
      | _ => None
      end
  end.

(** One JSON value at the head of [s]; [fuel] bounds the nesting and the
    number of elements. *)
Fixpoint value (fuel : nat) (s : string) {struct fuel} : option (JSON * string) :=
  match fuel with
  | O => None
  | S n =>
      match skip_ws s with
      | EmptyString => None
      | String c r =>
          if Ascii.eqb c "{" then
            match skip_ws r with
            | String "}" r' => Some (JObject ∅, r')
            | _ => members n r ∅
            end
          else if Ascii.eqb c "[" then
            match skip_ws r with
            | String "]" r' => Some (JArray [], r')
            | _ => elements n r []
            end
          else if Nat.eqb (nat_of_ascii c) 34 then
            match string_body r with
            | Some (str, r') => Some (JString str, r')
            | None => None
            end
          else scalar (String c r)
      end
  end
with elements (fuel : nat) (s : string) (acc : list JSON) {struct fuel}
  : option (JSON * string) :=
  match fuel with
  | O => None
  | S n =>
      match value n s with
      | Some (v, r) =>
          match skip_ws r with
          | String "," r' => elements n r' (acc ++ [v])
          | String "]" r' => Some (JArray (acc ++ [v]), r')
          | _ => None
          end
      | None => None
      end
  end
with members (fuel : nat) (s : string) (acc : gmap string JSON) {struct fuel}
  : option (JSON * string) :=
  match fuel with
  | O => None
  | S n =>
      match skip_ws s with
      | String c r =>
          if Nat.eqb (nat_of_ascii c) 34 then
            match string_body r with
            | Some (key, r1) =>
                match skip_ws r1 with
                | String ":" r2 =>
                    match value n r2 with
                    | Some (v, r3) =>
                        match skip_ws r3 with
                        | String "," r4 => members n r4 (<[key:=v]> acc)
                        | String "}" r4 => Some (JObject (<[key:=v]> acc), r4)
                        | _ => None
                        end
                    | None => None
                    end
                | _ => None
                end
            | None => None
            end
          else None
      | EmptyString => None
      end
  end.

(** A whole document: one value and nothing but white space after it. *)
Definition decode (data : string) : option JSON :=
  match value (S (String.length data)) data with
  | Some (v, rest) =>
      match skip_ws rest with
      | EmptyString => Some v
      | _ => None
      end
  | None => None
  end.

Definition Unmarshal_map (data : string) : gmap string JSON * option error :=
  match decode data with
  | Some (JObject m) => (m, None)
  | Some JNull => (∅, None)
  | Some _ => (∅, Some (LibError "json: cannot unmarshal into Go value of type map[string]interface {}" None))
  | None => (∅, syntax_error "invalid JSON")
  end.

Definition Unmarshal_slice (data : string) : list JSON * option error :=
  match decode data with
  | Some (JArray l) => (l, None)
  | Some JNull => ([], None)
  | Some _ => ([], Some (LibError "json: cannot unmarshal into Go value of type []interface {}" None))
  | None => ([], syntax_error "invalid JSON")
  end.

(** The members of a top-level object with the text of each value kept
    as it stands on the wire, as [json.RawMessage] holds it. *)
Fixpoint raw_members (fuel : nat) (s : string) (acc : gmap string string)
  : option (gmap string string) :=
  match fuel with
  | O => None
  | S n =>
      match skip_ws s with
      | String c r =>
          if Nat.eqb (nat_of_ascii c) 34 then
            match string_body r with
            | Some (key, r1) =>
                match skip_ws r1 with
                | String ":" r2 =>
                    let r2 := skip_ws r2 in
                    match value (S (String.length r2)) r2 with
                    | Some (_, r3) =>
                        let raw :=
                          String.substring 0 (String.length r2 - String.length r3) r2 in
                        match skip_ws r3 with
                        | String "," r4 => raw_members n r4 (<[key:=raw]> acc)
                        | String "}" r4 =>
                            match skip_ws r4 with
                            | EmptyString => Some (<[key:=raw]> acc)
                            | _ => None
                            end
                        | _ => None
                        end
                    | None => None
                    end
                | _ => None
                end
            | None => None
            end
          else None
      | EmptyString => None
      end
  end.

Definition raw_object (message : string) : option (gmap string string) :=
  match skip_ws message with
  | String "{" r =>
      match skip_ws r with
      | String "}" r' =>
          match skip_ws r' with
          | EmptyString => Some ∅
          | _ => None
          end
      | _ => raw_members (S (String.length r)) r ∅
      end
  | _ => None
  end.

(** A string field of the envelope: absent fields stay empty, a field
    that is no string is a type error. *)
Definition string_field (m : gmap string string) (key : string) : option string :=
  match m !! key with
  | None => Some EmptyString
  | Some raw =>
      match decode raw with
      | Some (JString s) => Some s
      | Some JNull => Some EmptyString
      | _ => None
      end
  end.

Definition Unmarshal_WsEvent (message : string) : WsEvent * option error :=
  let empty := {| Event := EmptyString; Channel := EmptyString; Data := EmptyString |} in
  match raw_object message with
  | Some m =>
      match string_field m "event", string_field m "channel" with
      | Some ev, Some ch =>
          ({| Event := ev; Channel := ch; Data := default EmptyString (m !! "data") |},
           None)
      | _, _ =>
          (empty, Some (LibError "json: cannot unmarshal into Go struct field of type string" None))
      end
  | None => (empty, syntax_error "invalid JSON")
  end.

Definition Marshal_RawMessage (raw : string) : string * option error :=
  match raw with
  | EmptyString => ("null", None)
  | _ => (raw, None)
  end.

End Reference.

(** The instance, over a server that answers [http.Get]. *)
Definition reference_lib (server : string -> Response * option error) : GoLib := {|
  ParseFloat := Reference.ParseFloat;
  Unmarshal_map := Reference.Unmarshal_map;
  Unmarshal_slice := Reference.Unmarshal_slice;
  Unmarshal_WsEvent := Reference.Unmarshal_WsEvent;
  Marshal_RawMessage := Reference.Marshal_RawMessage;
  http_Get := server
|}.

(** A server that is not reachable, and one that answers every request
    with the same body. *)
Definition unreachable (url : string) : Response * option error :=
  ({| ReadAll_Body := (EmptyString, None) |},
   Some (LibError "dial tcp: connection refused" None)).

Definition serving (body : string) (url : string) : Response * option error :=
  ({| ReadAll_Body := (body, None) |}, None).

(** Wire text is written with apostrophes here; [wire] puts the double
    quotes of JSON in their place. *)
Fixpoint wire (s : string) : string :=
  match s with
  | EmptyString => EmptyString
  | String c r =>
      String (if Ascii.eqb c "'" then ascii_of_nat 34 else c) (wire r)
  end.

(** ** Channels *)

(** A channel is its capacity and the values it buffers, oldest first. *)
Record chan (A : Type) : Type := mkChan { cap : nat; buf : list A }.

Arguments mkChan {A} cap buf.
Arguments cap {A} c.
Arguments buf {A} c.

(** [make(chan A, n)]. *)
Definition make {A} (n : nat) : chan A := {| cap := n; buf := [] |}.

(** A send that finds room in the buffer: the arm [case ch <- v] of a
    [select] with a [default], and the case in which a plain [ch <- v]
    does not wait.  [None]: the buffer is full. *)
Definition try_send {A} (ch : chan A) (v : A) : option (chan A) :=
  if (length (buf ch) <? cap ch)%nat
  then Some {| cap := cap ch; buf := buf ch ++ [v] |}
  else None.

(** A receive that finds a value in the buffer. *)
Definition try_recv {A} (ch : chan A) : option (A * chan A) :=
  match buf ch with
  | v :: rest => Some (v, {| cap := cap ch; buf := rest |})
  | [] => None
  end.

(** A call either completes or leaves its goroutine waiting. *)
Inductive blocking (A : Type) : Type :=
| Done (a : A)
| Blocks.

Arguments Done {A} a.
Arguments Blocks {A}.

(** ** [WsClient] (the declarations shared by [websocket.go] and
    [part_001]) *)

(** What the read loop and [Close] do to the outside, in order. *)
Inductive effect : Type :=
| Slept (d : Z)
| Printed (text : string)
| Streamed (e : WsEvent)
| ErrorTaken (err : error)
| ws_Closed.

(** The client: the [done] and [Errors] channels and the effects so
    far.  [Stream] is unbuffered in both files, so it holds nothing; the
    events handed over on it are [Streamed] effects. *)
Record WsClient : Type := mkWsClient {
  done : chan bool;
  Errors : chan error;
  log : list effect
}.

Definition set_done (d : chan bool) (c : WsClient) : WsClient :=
  {| done := d; Errors := Errors c; log := log c |}.

Definition set_Errors (e : chan error) (c : WsClient) : WsClient :=
  {| done := done c; Errors := e; log := log c |}.

Definition emit (x : effect) (c : WsClient) : WsClient :=
  {| done := done c; Errors := Errors c; log := log c ++ [x] |}.

Definition is_ws_Closed (x : effect) : bool :=
  match x with
  | ws_Closed => true
  | _ => false
  end.

(** How often [c.ws.Close()] has run. *)
Definition ws_Close_count (c : WsClient) : nat :=
  length (List.filter is_ws_Closed (log c)).

(** What [ReadMessage] returns to one iteration of the read loop. *)
Record world : Type := mkWorld { ReadMessage : string * option error }.

(** One iteration of the read loop ends in the next iteration, in the
    return of the goroutine (its deferred [c.ws.Close()] has run), or at
    a send that waits for a receiver. *)
Inductive outcome : Type :=
| Next (c : WsClient)
| Exit (c : WsClient)
| AtSend_Stream (c : WsClient) (e : WsEvent)
| AtSend_Errors (c : WsClient) (err : error).

(** ** [websocket.go] *)

Module websocket_go.
Section WithLib.
Context `{GoLib}.

Definition readMsgTimeout : Z := 100 * time.Millisecond.

(** [NewWsClient]; [dial] is the error of [Dial]. *)
Definition NewWsClient (dial : option error) : option WsClient * option error :=
  match dial with
  | Some err => (None, Some (fmt_wrapError "error dialing websocket: " err))
  | None => (Some {| done := make 1; Errors := make 1; log := [] |}, None)
  end.

(** [select { case c.Errors <- err: default: fmt.Printf(note, err) }]. *)
Definition push_error (note : string) (err : error) (c : WsClient) : WsClient :=
  match try_send (Errors c) err with
  | Some ch => set_Errors ch c
  | None => emit (Printed (note +:+ Error err)) c
  end.

(** The body of the [for] of the read loop. *)
Definition readLoop_iter (w : world) (c : WsClient) : outcome :=
  match try_recv (done c) with
  | Some (_, d) => Exit (emit ws_Closed (set_done d c))
  | None =>
      let '(message, err) := ReadMessage w in
      match err with
      | Some err =>
          let c := push_error "can't write to Errors chan read message err: " err c in
          match Temporary err with
          | Some false => Exit (emit ws_Closed c)
          | _ => Next (emit (Slept readMsgTimeout) c)
          end
      | None =>
          let '(e, err) := Unmarshal_WsEvent message in
          match err with
          | Some err =>
              Next (push_error "can't write to Errors chan unmarshal err: " err c)
          | None => AtSend_Stream c e
          end
      end
  end.

(** [Close]. *)
Definition Close (c : WsClient) : blocking WsClient :=
  match try_send (done c) true with
  | Some d => Done (set_done d c)
  | None => Done (emit (Printed "failed to send done event to chan") c)
  end.

End WithLib.
End websocket_go.

(** ** [part_001] *)

Module part_001.
Section WithLib.
Context `{GoLib}.

(** [NewWsClient]: [Errors] is unbuffered here. *)
Definition NewWsClient (dial : option error) : option WsClient * option error :=
  match dial with
  | Some err => (None, Some (fmt_wrapError "error dialing websocket: " err))
  | None => (Some {| done := make 1; Errors := make 0; log := [] |}, None)
  end.

(** The body of the [for] of the read loop: both failures are sent with
    a plain [c.Errors <- err]. *)
Definition readLoop_iter (w : world) (c : WsClient) : outcome :=
  match try_recv (done c) with
  | Some (_, d) => Exit (emit ws_Closed (set_done d c))
  | None =>
      let '(message, err) := ReadMessage w in
      match err with
      | Some err =>
          match try_send (Errors c) err with
          | Some ch => Next (set_Errors ch c)
          | None => AtSend_Errors c err
          end
      | None =>
          let '(e, err) := Unmarshal_WsEvent message in
          match err with
          | Some err =>
              match try_send (Errors c) err with
              | Some ch => Next (set_Errors ch c)
              | None => AtSend_Errors c err
              end
          | None => AtSend_Stream c e
          end
      end
  end.

(** [Close]: a plain [c.done <- true]. *)
Definition Close (c : WsClient) : blocking WsClient :=
  match try_send (done c) true with
  | Some d => Done (set_done d c)
  | None => Blocks
  end.

End WithLib.
End part_001.

(** ** Control frames ([sendEvent], [Subscribe] and [Unsubscribe], the
    same text in [websocket.go] and [part_001]) *)

(** The write side of a client: whether [sendLock] is held, the calls of
    [c.ws.WriteJSON] so far with their results, and what [WriteJSON]
    answers to the [n]-th call for a frame. *)
Record writer : Type := mkWriter {
  sendLock : bool;
  written : list (WsEvent * option error);
  WriteJSON : nat -> WsEvent -> option error
}.

(** [sendEvent]: lock, write, and unlock on the way out. *)
Definition sendEvent (sub : WsEvent) (c : writer) : blocking (writer * option error) :=
  if sendLock c then Blocks
  else
    let err := WriteJSON c (length (written c)) sub in
    Done ({| sendLock := false;
             written := written c ++ [(sub, err)];
             WriteJSON := WriteJSON c |}, err).

(** [fmt.Sprintf(`{"channel":"%s"}`, channel)]. *)
Definition channel_payload (channel : string) : string :=
  "{" +:+ dquote +:+ "channel" +:+ dquote +:+ ":" +:+ dquote +:+ channel +:+ dquote +:+ "}".

(** The range loop of [Subscribe] and of [Unsubscribe], which differ in
    the event name only. *)
Fixpoint send_each (event : string) (channels : list string) (c : writer)
  : blocking (writer * option error) :=
  match channels with
  | [] => Done (c, None)
  | channel :: rest =>
      let sub := {| Event := event; Channel := EmptyString;
                    Data := channel_payload channel |} in
      match sendEvent sub c with
      | Blocks => Blocks
      | Done (c', Some err) => Done (c', Some err)
      | Done (c', None) => send_each event rest c'
      end
  end.

Definition Subscribe (channels : list string) (c : writer)
  : blocking (writer * option error) :=
  send_each "bts:subscribe" channels c.

Definition Unsubscribe (channels : list string) (c : writer)
  : blocking (writer * option error) :=
  send_each "bts:unsubscribe" channels c.

(** ** The goroutines around a client *)

(** The read loop is running, waits at a send, or has returned. *)
Inductive loop_status : Type :=
| Running
| Waiting_Stream (e : WsEvent)
| Waiting_Errors (err : error)
| Returned.

Record system : Type := mkSystem { client : WsClient; loop : loop_status }.

(** What can happen next: the read loop runs one iteration; some
    goroutine calls [Close]; a consumer receives from [Errors] or from
    [Stream]. *)
Inductive action : Type :=
| RunLoop (w : world)
| CallClose
| RecvErrors
| RecvStream.

Definition after (o : outcome) : system :=
  match o with
  | Next c => {| client := c; loop := Running |}
  | Exit c => {| client := c; loop := Returned |}
  | AtSend_Stream c e => {| client := c; loop := Waiting_Stream e |}
  | AtSend_Errors c err => {| client := c; loop := Waiting_Errors err |}
  end.

Section Systems.
Variable readLoop_iter : world -> WsClient -> outcome.
Variable Close : WsClient -> blocking WsClient.

(** One action; [None] when the action waits (a [Close] that blocks, a
    receive on an empty channel, an iteration of a loop that is not
    running). *)
Definition step (a : action) (s : system) : option system :=
  match a, loop s with
  | RunLoop w, Running => Some (after (readLoop_iter w (client s)))
  | RunLoop _, _ => None
  | CallClose, _ =>
      match Close (client s) with
      | Done c => Some {| client := c; loop := loop s |}
      | Blocks => None
      end
  | RecvErrors, Waiting_Errors err =>
      match try_recv (Errors (client s)) with
      | Some (first, ch) =>
          Some {| client :=
                    emit (ErrorTaken first)
                      (set_Errors {| cap := cap ch; buf := buf ch ++ [err] |} (client s));
                  loop := Running |}
      | None =>
          Some {| client := emit (ErrorTaken err) (client s); loop := Running |}
      end
  | RecvErrors, _ =>
      match try_recv (Errors (client s)) with
      | Some (err, ch) =>
          Some {| client := emit (ErrorTaken err) (set_Errors ch (client s));
                  loop := loop s |}
      | None => None
      end
  | RecvStream, Waiting_Stream e =>
      Some {| client := emit (Streamed e) (client s); loop := Running |}
  | RecvStream, _ => None
  end.

(** A schedule, action by action; an action that waits is skipped. *)
Fixpoint run (acts : list action) (s : system) : system :=
  match acts with
  | [] => s
  | a :: rest => run rest (default s (step a s))
  end.

End Systems.

(** * The vocabulary of the properties *)

(** The two sides of the book. *)
Inductive side : Type := Side_bids | Side_asks.

Definition side_name (sd : side) : string :=
  match sd with
  | Side_bids => "bids"
  | Side_asks => "asks"
  end.

Definition other_side (sd : side) : side :=
  match sd with
  | Side_bids => Side_asks
  | Side_asks => Side_bids
  end.

(** A clock reading is well formed when its nanoseconds are within the
    second. *)
Definition well_formed (t : time.Time) : Prop :=
  0 <= time.nsec t < 1000000000.

(** The client [NewWsClient] makes when the dial succeeds, in
    [websocket.go] and in [part_001]. *)
Definition fresh : WsClient := {| done := make 1; Errors := make 1; log := [] |}.
Definition fresh_unbuffered : WsClient := {| done := make 1; Errors := make 0; log := [] |}.

Definition running (c : WsClient) : system := {| client := c; loop := Running |}.

(** The durations the loop has slept, in order. *)
Definition sleeps (c : WsClient) : list Z :=
  omap (fun x => match x with Slept d => Some d | _ => None end) (log c).

(** The classification of a read failure in [websocket.go]: fatal when
    the error has the [Temporary] method and it answers false. *)
Definition retryable (err : error) : bool :=
  match Temporary err with
  | Some false => false
  | _ => true
  end.

(** [n] calls of [Close] in a row, by goroutines that go on when a call
    completes (a call that blocks leaves the client as it is). *)
Fixpoint Closes (close : WsClient -> blocking WsClient) (n : nat) (c : WsClient)
  : WsClient :=
  match n with
  | O => c
  | S k =>
      match close c with
      | Done c' => Closes close k c'
      | Blocks => Closes close k c
      end
  end.

Section Vocabulary.
Context `{GoLib}.

Definition not_a_string (x : JSON) : Prop := forall s, x <> JString s.
Definition not_an_array (x : JSON) : Prop := forall l, x <> JArray l.
Definition not_an_object (x : JSON) : Prop := forall m, x <> JObject m.

(** An element the closure [parse] decodes: an array that starts with
    two strings, both accepted by [ParseFloat].  Entries after the second
    are not looked at. *)
Inductive good_order : JSON -> Order -> Prop :=
| good_order_intro (p a : string) (rest : list JSON) (fp fa : float) :
    ParseFloat p = (fp, None) ->
    ParseFloat a = (fa, None) ->
    good_order (JArray (JString p :: JString a :: rest))
               {| Price := fp; Amount := fa |}.

(** An element on which [parse] returns the error [e] of [ParseFloat]:
    the price text is refused, or the price is accepted and the amount
    text is refused. *)
Inductive unparsable_order : JSON -> error -> Prop :=
| unparsable_price (p : string) (rest : list JSON) (f : float) (e : error) :
    ParseFloat p = (f, Some e) ->
    unparsable_order (JArray (JString p :: rest)) e
| unparsable_amount (p a : string) (rest : list JSON) (fp f : float) (e : error) :
    ParseFloat p = (fp, None) ->
    ParseFloat a = (f, Some e) ->
    unparsable_order (JArray (JString p :: JString a :: rest)) e.

(** An element on which [parse] panics: it is no array, or the price
    entry is missing or no string, or the price is accepted and the
    amount entry is missing or no string. *)
Inductive ill_typed_order : JSON -> Prop :=
| ill_not_array (x : JSON) :
    not_an_array x -> ill_typed_order x
| ill_no_price :
    ill_typed_order (JArray [])
| ill_price_type (x : JSON) (rest : list JSON) :
    not_a_string x -> ill_typed_order (JArray (x :: rest))
| ill_no_amount (p : string) (fp : float) :
    ParseFloat p = (fp, None) -> ill_typed_order (JArray [JString p])
| ill_amount_type (p : string) (fp : float) (x : JSON) (rest : list JSON) :
    ParseFloat p = (fp, None) ->
    not_a_string x -> ill_typed_order (JArray (JString p :: x :: rest)).

(** The wire form of a (price, amount) pair of strings, and the order it
    stands for. *)
Definition wire_pair (pa : string * string) : JSON :=
  JArray [JString (fst pa); JString (snd pa)].

Definition order_of (pa : string * string) : Order :=
  {| Price := fst (ParseFloat (fst pa)); Amount := fst (ParseFloat (snd pa)) |}.

Definition parses (s : string) : Prop := snd (ParseFloat s) = None.

(** A property of [parseOrderBook] that holds in [bitstamp.go] and in
    [part_000]. *)
Definition in_both_files
    (P : (time.Time -> string -> go (option OrderBook * option error)) -> Prop) : Prop :=
  P bitstamp_go.parseOrderBook /\ P part_000.parseOrderBook.

(** The unix time a document stands for at the clock reading [now]: the
    seconds of [now] when it has no [timestamp], the value of the field
    when it is a string [ParseInt] accepts. *)
Inductive timestamp_of (now : time.Time) (m : gmap string JSON) : Z -> Prop :=
| timestamp_absent :
    m !! "timestamp" = None ->
    timestamp_of now m (time.Time_Unix now)
| timestamp_present (s : string) (ts : Z) :
    m !! "timestamp" = Some (JString s) ->
    strconv.ParseInt s = (ts, None) ->
    timestamp_of now m ts.

(** [sd] is the side whose array is [pre ++ el :: post], with [pre]
    decoding to [os]; the other side is the array [others], which decodes
    to [oos] when it is the one [parseOrderBook] reads first. *)
Definition first_failure_on (m : gmap string JSON) (sd : side)
    (pre : list JSON) (el : JSON) (post others : list JSON)
    (os oos : list Order) : Prop :=
  m !! side_name sd = Some (JArray (pre ++ el :: post))
  /\ m !! side_name (other_side sd) = Some (JArray others)
  /\ Forall2 good_order pre os
  /\ (sd = Side_asks -> Forall2 good_order others oos).

(** An element [formatTrades] decodes to a trade: an object whose
    [price], [amount], [date] and [tid] are strings, the first two
    accepted by [ParseFloat] and the third by [ParseInt]. *)
Inductive good_trade : JSON -> Trade -> Prop :=
| good_trade_intro (m : gmap string JSON) (p a d tid : string)
    (fp fa : float) (ts : Z) :
    m !! "price" = Some (JString p) -> ParseFloat p = (fp, None) ->
    m !! "amount" = Some (JString a) -> ParseFloat a = (fa, None) ->
    m !! "date" = Some (JString d) -> strconv.ParseInt d = (ts, None) ->
    m !! "tid" = Some (JString tid) ->
    good_trade (JObject m)
      {| Trade_Time := time.Unix ts 0; ID := tid; Trade_Price := fp; Trade_Amount := fa |}.

(** An element on which the loop returns the error [e]: the text of
    [price], [amount] or [date] is refused, the fields read before it
    being accepted. *)
Inductive unparsable_trade : JSON -> error -> Prop :=
| unparsable_trade_price (m : gmap string JSON) (p : string) (f : float) (e : error) :
    m !! "price" = Some (JString p) -> ParseFloat p = (f, Some e) ->
    unparsable_trade (JObject m) e
| unparsable_trade_amount (m : gmap string JSON) (p a : string) (fp f : float) (e : error) :
    m !! "price" = Some (JString p) -> ParseFloat p = (fp, None) ->
    m !! "amount" = Some (JString a) -> ParseFloat a = (f, Some e) ->
    unparsable_trade (JObject m) e
| unparsable_trade_date (m : gmap string JSON) (p a d : string) (fp fa : float)
    (n : Z) (e : error) :
    m !! "price" = Some (JString p) -> ParseFloat p = (fp, None) ->
    m !! "amount" = Some (JString a) -> ParseFloat a = (fa, None) ->
    m !! "date" = Some (JString d) -> strconv.ParseInt d = (n, Some e) ->
    unparsable_trade (JObject m) e.

(** An element on which the loop panics: it is no object, or one of the
    four fields is missing or no string, the fields read before it being
    accepted. *)
Inductive ill_typed_trade : JSON -> Prop :=
| ill_trade_not_object (x : JSON) :
    not_an_object x -> ill_typed_trade x
| ill_trade_price (m : gmap string JSON) :
    not_a_string (index_map m "price") -> ill_typed_trade (JObject m)
| ill_trade_amount (m : gmap string JSON) (p : string) (fp : float) :
    m !! "price" = Some (JString p) -> ParseFloat p = (fp, None) ->
    not_a_string (index_map m "amount") -> ill_typed_trade (JObject m)
| ill_trade_date (m : gmap string JSON) (p a : string) (fp fa : float) :
    m !! "price" = Some (JString p) -> ParseFloat p = (fp, None) ->
    m !! "amount" = Some (JString a) -> ParseFloat a = (fa, None) ->
    not_a_string (index_map m "date") -> ill_typed_trade (JObject m)
| ill_trade_tid (m : gmap string JSON) (p a d : string) (fp fa : float) (ts : Z) :
    m !! "price" = Some (JString p) -> ParseFloat p = (fp, None) ->
    m !! "amount" = Some (JString a) -> ParseFloat a = (fa, None) ->
    m !! "date" = Some (JString d) -> strconv.ParseInt d = (ts, None) ->
    not_a_string (index_map m "tid") -> ill_typed_trade (JObject m).

(** An iteration that meets a failure: [ReadMessage] fails, or it
    succeeds and the frame does not decode. *)
Inductive failure (w : world) : error -> Prop :=
| read_failure (message : string) (err : error) :
    ReadMessage w = (message, Some err) -> failure w err
| decode_failure (message : string) (e : WsEvent) (err : error) :
    ReadMessage w = (message, None) ->
    Unmarshal_WsEvent message = (e, Some err) ->
    failure w err.

Definition read_fails (keep_on : bool) (w : world) : Prop :=
  exists message err, ReadMessage w = (message, Some err) /\ retryable err = keep_on.

(** The shutdown flag of a client: one slot, empty or holding [true]. *)
Definition flag_ok (c : WsClient) : Prop :=
  cap (done c) = 1%nat /\ (buf (done c) = [] \/ buf (done c) = [true]).

(** What every schedule keeps: the flag is in order, and the connection
    has been released once if the loop has returned and not at all
    otherwise. *)
Definition released_once (s : system) : Prop :=
  flag_ok (client s)
  /\ ws_Close_count (client s) = match loop s with Returned => 1%nat | _ => 0%nat end.

End Vocabulary.

(** The library of the examples: the reference readers, no server. *)
Definition offline : GoLib := reference_lib unreachable.

(** The library of an example in which every REST request is answered
    with [body]. *)
Definition answering (body : string) : GoLib := reference_lib (serving body).

Definition bad_payload : string := wire "{'bids':[['x','1']],'asks':[]}".

(** The clock reading used in the examples. *)
Definition a_moment : time.Time := {| time.sec := 1700000123; time.nsec := 456000000 |}.

(** Two errors of the transport: a timeout, which is temporary, and a
    closed connection, which is not; and a read that fails. *)
Definition timeout_error : error := LibError "i/o timeout" (Some true).
Definition closed_error : error := LibError "use of closed network connection" (Some false).

Definition failing_read (err : error) : world :=
  {| ReadMessage := (EmptyString, Some err) |}.

(** The two control requests, the method of each and its event name. *)
Inductive control : Type := Sub | Unsub.

Definition control_event (op : control) : string :=
  match op with
  | Sub => "bts:subscribe"
  | Unsub => "bts:unsubscribe"
  end.

Definition control_call (op : control)
  : list string -> writer -> blocking (writer * option error) :=
  match op with
  | Sub => Subscribe
  | Unsub => Unsubscribe
  end.

(** The frame a control request makes for one channel. *)
Definition control_frame (op : control) (channel : string) : WsEvent :=
  {| Event := control_event op; Channel := EmptyString;
     Data := channel_payload channel |}.

(** The writer after further calls of [WriteJSON], its lock free. *)
Definition having_written (more : list (WsEvent * option error)) (c : writer) : writer :=
  {| sendLock := false; written := written c ++ more; WriteJSON := WriteJSON c |}.

(** A text that [fmt.Sprintf] can put between the quotes of a JSON
    string as it is: no quote, no backslash, no control character. *)
Fixpoint plain_text (s : string) : bool :=
  match s with
  | EmptyString => true
  | String c r =>
      let n := nat_of_ascii c in
      (Nat.leb 32 n && negb (Nat.eqb n 34) && negb (Nat.eqb n 92) && plain_text r)%bool
  end.

(** The schedule in which the loop reads the frames [messages] one
    after the other and a consumer receives from [Stream] after each. *)
Definition reading (message : string) : world := {| ReadMessage := (message, None) |}.

Definition read_and_receive (messages : list string) : list action :=
  flat_map (fun message => [RunLoop (reading message); RecvStream]) messages.

(** The client after further effects. *)
Definition having_done (more : list effect) (c : WsClient) : WsClient :=
  {| done := done c; Errors := Errors c; log := log c ++ more |}.

(** What every schedule of [websocket.go] keeps about [Errors]. *)
Definition one_slot (s : system) : Prop :=
  cap (Errors (client s)) = 1%nat
  /\ (length (buf (Errors (client s))) <= 1)%nat
  /\ forall err, loop s <> Waiting_Errors err.

Section FeedVocabulary.
Context `{GoLib}.



End FeedVocabulary.



(** Two frames on the wire and the events they decode to. *)
Definition two_frames : list string :=
  [ wire "{'event':'data','channel':'order_book_btcusd','data':{'bids':[],'asks':[]}}";
    wire "{'event':'bts:subscription_succeeded','channel':'order_book_btcusd','data':{}}" ].

Definition two_events : list WsEvent :=
  [ {| Event := "data"; Channel := "order_book_btcusd";
       Data := wire "{'bids':[],'asks':[]}" |};
    {| Event := "bts:subscription_succeeded"; Channel := "order_book_btcusd";
       Data := "{}" |} ].


Definition having_called (more : list client_call) (s : feed) : feed :=
  {| dataChan := dataChan s; calls := calls s ++ more; stdout := stdout s |}.



Definition data_event (payload : string) : WsEvent :=
  {| Event := "data"; Channel := "order_book_btcusd"; Data := payload |}.


(** Two payloads on which the decoder returns no error and no book: a
    first bid with a price and no amount, and a document without
    [bids]. *)
Definition short_payload : string := wire "{'bids':[['1']],'asks':[]}".

Definition no_bids_payload : string := wire "{'asks':[]}".

(** The error both files return for [bad_payload]. *)
Definition refused_price : error :=
  errors_Wrap (NumError "ParseFloat" "x" ErrSyntax) "bids parsing error".

(** A feed, given by one iteration [iter] of its loop and by the loop
    [run] over what becomes ready, drops the ready event [r]: in whatever
    state the feed is, the iteration leaves it as it was (nothing sent,
    nothing printed, no call on the client), in its loop, and what is
    ready after [r] is handled from that state. *)
Definition dropped_by {R : Type} (iter : R -> feed -> go feed_state)
    (run : list R -> feed -> go feed_state) (r : R) : Prop :=
  forall s : feed,
    iter r s = Returns (Delivering s)
    /\ forall rest : list R, run (r :: rest) s = run rest s.

(** The ready event [r] is fatal to the feed: the iteration panics with
    [p], and so does the loop, whatever is ready after [r]. *)
Definition fatal_to {R : Type} (iter : R -> feed -> go feed_state)
    (run : list R -> feed -> go feed_state) (r : R) (p : panic) : Prop :=
  forall s : feed,
    iter r s = Panics p
    /\ forall rest : list R, run (r :: rest) s = Panics p.

(** * Properties *)

(** ** Elements of [bids] and [asks] *)

Section OrderBookFacts.
Context `{GoLib}.

Lemma assert_string_not_a_string (x : JSON) :
  not_a_string x -> assert_string x = Panics (InterfaceConversion "string").
Proof.
  intros Hx. destruct x; try reflexivity. exfalso. eapply Hx. reflexivity.
Qed.

Lemma assert_slice_not_an_array (x : JSON) :
  not_an_array x -> assert_slice x = Panics (InterfaceConversion "[]interface {}").
Proof.
  intros Hx. destruct x; try reflexivity. exfalso. eapply Hx. reflexivity.
Qed.

Lemma assert_map_not_an_object (x : JSON) :
  not_an_object x -> assert_map x = Panics (InterfaceConversion "map[string]interface {}").
Proof.
  intros Hx. destruct x; try reflexivity. exfalso. eapply Hx. reflexivity.
Qed.

(** One good element makes the loop go round once. *)
Lemma parse_range_step (x : JSON) (o : Order) (arr : list JSON) (acc : list Order) :
  good_order x o ->
  parse_range (x :: arr) acc = parse_range arr (acc ++ [o]).
Proof.
  intros Hx. destruct Hx as [p a rest fp fa Hp Ha].
  cbn. rewrite Hp. cbn. rewrite Ha. reflexivity.
Qed.

Lemma parse_range_good (arr : list JSON) (os : list Order) :
  Forall2 good_order arr os ->
  forall acc, parse_range arr acc = Returns (acc ++ os, None).
Proof.
  induction 1 as [|x o arr os Hx _ IH]; intros acc.
  - cbn. rewrite app_nil_r. reflexivity.
  - rewrite (parse_range_step x o) by assumption.
    rewrite IH. rewrite <- app_assoc. reflexivity.
Qed.

Lemma parse_range_skip (pre : list JSON) (os : list Order) (tail : list JSON) :
  Forall2 good_order pre os ->
  forall acc, parse_range (pre ++ tail) acc = parse_range tail (acc ++ os).
Proof.
  induction 1 as [|x o arr os' Hx _ IH]; intros acc.
  - cbn. rewrite app_nil_r. reflexivity.
  - cbn [app]. rewrite (parse_range_step x o) by assumption.
    rewrite IH. rewrite <- app_assoc. reflexivity.
Qed.

Lemma parse_range_unparsable (el : JSON) (e : error) (post : list JSON) (acc : list Order) :
  unparsable_order el e ->
  parse_range (el :: post) acc = Returns ([], Some e).
Proof.
  intros Hel. destruct Hel as [p rest f e Hp | p a rest fp f e Hp Ha].
  - cbn. rewrite Hp. reflexivity.
  - cbn. rewrite Hp. cbn. rewrite Ha. reflexivity.
Qed.

Lemma parse_range_ill_typed (el : JSON) (post : list JSON) (acc : list Order) :
  ill_typed_order el ->
  panicked (parse_range (el :: post) acc) = true.
Proof.
  intros Hel. destruct Hel as [x Hx | | x rest Hx | p fp Hp | p fp x rest Hp Hx].
  - cbn. rewrite (assert_slice_not_an_array x Hx). reflexivity.
  - reflexivity.
  - cbn. rewrite (assert_string_not_a_string x Hx). reflexivity.
  - cbn. rewrite Hp. reflexivity.
  - cbn. rewrite Hp. cbn. rewrite (assert_string_not_a_string x Hx). reflexivity.
Qed.

Lemma wire_pairs_good (pairs : list (string * string)) :
  Forall (fun pa => parses (fst pa) /\ parses (snd pa)) pairs ->
  Forall2 good_order (wire_pair <$> pairs) (order_of <$> pairs).
Proof.
  induction 1 as [|[p a] pairs [Hp Ha] _ IH]; cbn.
  - constructor.
  - constructor; [|exact IH].
    unfold wire_pair, order_of, parses in *. cbn in *.
    destruct (ParseFloat p) as [fp ep] eqn:Ep.
    destruct (ParseFloat a) as [fa ea] eqn:Ea.
    cbn in *. subst ep ea.
    apply good_order_intro; assumption.
Qed.

End OrderBookFacts.

(** ** [parseOrderBook] on a document with a usable timestamp *)

Section ParseOrderBookFacts.
Context `{GoLib}.

Lemma read_timestamp_of (now : time.Time) (m : gmap string JSON) (ts : Z) :
  timestamp_of now m ts -> read_timestamp now m None = GoOn ts None.
Proof.
  intros [Habs | s ts' Hs Hp]; unfold read_timestamp.
  - rewrite Habs. reflexivity.
  - rewrite Hs, Hp. reflexivity.
Qed.

(** Both files reach [parse_sides] with the same arguments when both
    sides are arrays. *)
Lemma parseOrderBook_reaches_sides (now : time.Time) (data : string)
    (m : gmap string JSON) (ts : Z) (bids asks : list JSON) :
  Unmarshal_map data = (m, None) ->
  timestamp_of now m ts ->
  m !! "bids" = Some (JArray bids) ->
  m !! "asks" = Some (JArray asks) ->
  in_both_files (fun parseOrderBook =>
    parseOrderBook now data =
    parse_sides {| Time := time.Unix ts 0; Asks := []; Bids := [] |} bids asks).
Proof.
  intros Hu Ht Hb Ha. apply read_timestamp_of in Ht.
  split.
  - unfold bitstamp_go.parseOrderBook. rewrite Hu, Ht.
    unfold index_map. rewrite Hb, Ha. reflexivity.
  - unfold part_000.parseOrderBook. rewrite Hu, Ht.
    unfold index_map. rewrite Hb, Ha. reflexivity.
Qed.

Lemma parse_sides_good (result : OrderBook) (bids asks : list JSON)
    (obs oas : list Order) :
  Forall2 good_order bids obs ->
  Forall2 good_order asks oas ->
  parse_sides result bids asks =
  Returns (Some {| Time := Time result; Asks := oas; Bids := obs |}, None).
Proof.
  intros Hb Ha. unfold parse_sides, parse.
  rewrite (parse_range_good bids obs Hb). cbn.
  rewrite (parse_range_good asks oas Ha). reflexivity.
Qed.

Lemma parseOrderBook_decodes (now : time.Time) (data : string)
    (m : gmap string JSON) (ts : Z) (bids asks : list JSON) (obs oas : list Order) :
  Unmarshal_map data = (m, None) ->
  timestamp_of now m ts ->
  m !! "bids" = Some (JArray bids) ->
  m !! "asks" = Some (JArray asks) ->
  Forall2 good_order bids obs ->
  Forall2 good_order asks oas ->
  in_both_files (fun parseOrderBook =>
    parseOrderBook now data =
    Returns (Some {| Time := time.Unix ts 0; Asks := oas; Bids := obs |}, None)).
Proof.
  intros Hu Ht Hb Ha Gb Ga.
  destruct (parseOrderBook_reaches_sides now data m ts bids asks Hu Ht Hb Ha) as [E1 E2].
  split; [rewrite E1 | rewrite E2]; apply parse_sides_good; assumption.
Qed.

(** C1.  A document whose [bids] and [asks] are arrays of (price,
    amount) string pairs that [ParseFloat] accepts, with no [timestamp]
    or a valid one, decodes in both files to the order book whose [Bids]
    and [Asks] are the pairs of the input, element by element in the
    input order, each with the values [ParseFloat] gives its two
    strings.  The result is a [map] over the input: nothing is sorted. *)
Theorem parseOrderBook_preserves_order (now : time.Time) (data : string)
    (m : gmap string JSON) (ts : Z) (bids asks : list (string * string)) :
  Unmarshal_map data = (m, None) ->
  timestamp_of now m ts ->
  m !! "bids" = Some (JArray (wire_pair <$> bids)) ->
  m !! "asks" = Some (JArray (wire_pair <$> asks)) ->
  Forall (fun pa => parses (fst pa) /\ parses (snd pa)) bids ->
  Forall (fun pa => parses (fst pa) /\ parses (snd pa)) asks ->
  in_both_files (fun parseOrderBook =>
    parseOrderBook now data =
    Returns (Some {| Time := time.Unix ts 0;
                     Asks := order_of <$> asks;
                     Bids := order_of <$> bids |}, None)).
Proof.
  intros Hu Ht Hb Ha Pb Pa.
  apply (parseOrderBook_decodes now data m ts _ _ _ _ Hu Ht Hb Ha).
  - apply wire_pairs_good. exact Pb.
  - apply wire_pairs_good. exact Pa.
Qed.

End ParseOrderBookFacts.

(** The example of the specification, run on the wire text: bids
    [(100.5, 2); (101, 1)] and asks [(102, 3)], in that order. *)
Lemma parseOrderBook_preserves_order_example :
  let data := wire "{'bids':[['100.5','2'],['101','1']],'asks':[['102','3']]}" in
  let book :=
    {| Time := time.Unix 1700000123 0;
       Asks := [ {| Price := 102; Amount := 3 |} ];
       Bids := [ {| Price := 100.5; Amount := 2 |}; {| Price := 101; Amount := 1 |} ] |} in
  @bitstamp_go.parseOrderBook offline a_moment data
    = Returns (Some book, None)
  /\ @part_000.parseOrderBook offline a_moment data
    = Returns (Some book, None).
Proof.
  pose (data := wire "{'bids':[['100.5','2'],['101','1']],'asks':[['102','3']]}").
  pose proof
    (@parseOrderBook_preserves_order offline a_moment data
       (fst (@Unmarshal_map offline data)) (time.Time_Unix a_moment)
       [("100.5", "2"); ("101", "1")] [("102", "3")]) as W.
  assert (W' := W ltac:(vm_compute; reflexivity)
                  ltac:(apply timestamp_absent; vm_compute; reflexivity)
                  ltac:(vm_compute; reflexivity)
                  ltac:(vm_compute; reflexivity)
                  ltac:(repeat constructor)
                  ltac:(repeat constructor)).
  vm_compute in W'. vm_compute. exact W'.
Defined.

(** ** The first element that does not decode *)

Section FirstFailure.
Context `{GoLib}.

Lemma parse_unparsable (pre post : list JSON) (el : JSON) (os : list Order) (e : error) :
  Forall2 good_order pre os ->
  unparsable_order el e ->
  parse (pre ++ el :: post) = Returns ([], Some e).
Proof.
  intros Hpre Hel. unfold parse.
  rewrite (parse_range_skip pre os (el :: post) Hpre).
  apply parse_range_unparsable. exact Hel.
Qed.

Lemma parse_ill_typed (pre post : list JSON) (el : JSON) (os : list Order) :
  Forall2 good_order pre os ->
  ill_typed_order el ->
  panicked (parse (pre ++ el :: post)) = true.
Proof.
  intros Hpre Hel. unfold parse.
  rewrite (parse_range_skip pre os (el :: post) Hpre).
  apply parse_range_ill_typed. exact Hel.
Qed.

Lemma parse_good (arr : list JSON) (os : list Order) :
  Forall2 good_order arr os -> parse arr = Returns (os, None).
Proof.
  intros Harr. unfold parse. rewrite (parse_range_good arr os Harr). reflexivity.
Qed.

Lemma first_failure_sides (m : gmap string JSON) (sd : side)
    (pre : list JSON) (el : JSON) (post others : list JSON) (os oos : list Order) :
  first_failure_on m sd pre el post others os oos ->
  exists bids asks,
    m !! "bids" = Some (JArray bids) /\ m !! "asks" = Some (JArray asks)
    /\ match sd with
       | Side_bids => bids = pre ++ el :: post
       | Side_asks => asks = pre ++ el :: post /\ Forall2 good_order bids oos
       end.
Proof.
  intros (Hs & Ho & _ & Hoth). destruct sd; cbn in Hs, Ho.
  - exists (pre ++ el :: post), others. auto.
  - exists others, (pre ++ el :: post). auto.
Qed.

(** C4, as the code has it.  When the document decodes up to an element
    of [bids] or [asks] whose price or amount text [ParseFloat] refuses
    with [e] (the elements before it on that side decode, and so does all
    of [bids] when the element is in [asks]), both files return no book
    and the error [e] wrapped with the message that names the side.  The
    arity is not looked at: [good_order] and [unparsable_order] allow any
    entries after the ones that are read. *)
Theorem parseOrderBook_unparsable_entry (now : time.Time) (data : string)
    (m : gmap string JSON) (ts : Z) (sd : side)
    (pre : list JSON) (el : JSON) (post others : list JSON)
    (os oos : list Order) (e : error) :
  Unmarshal_map data = (m, None) ->
  timestamp_of now m ts ->
  first_failure_on m sd pre el post others os oos ->
  unparsable_order el e ->
  in_both_files (fun parseOrderBook =>
    parseOrderBook now data =
    Returns (None, Some (errors_Wrap e (side_name sd +:+ " parsing error")))).
Proof.
  intros Hu Ht Hff Hel.
  assert (Forall2 good_order pre os) as Hpre by apply Hff.
  destruct (first_failure_sides m sd pre el post others os oos Hff)
    as (bids & asks & Hb & Ha & Hsd).
  destruct (parseOrderBook_reaches_sides now data m ts bids asks Hu Ht Hb Ha)
    as [E1 E2].
  assert (parse_sides {| Time := time.Unix ts 0; Asks := []; Bids := [] |} bids asks
          = Returns (None, Some (errors_Wrap e (side_name sd +:+ " parsing error"))))
    as Hsides.
  { unfold parse_sides. destruct sd; cbn [side_name].
    - subst bids. rewrite (parse_unparsable pre post el os e Hpre Hel). reflexivity.
    - destruct Hsd as [-> Hbids].
      rewrite (parse_good bids oos Hbids). cbn.
      rewrite (parse_unparsable pre post el os e Hpre Hel). reflexivity. }
  split; [rewrite E1 | rewrite E2]; exact Hsides.
Qed.

(** The message of the wrapped error starts with the name of the side
    and ends with the message of the numeric-parse failure; [Cause]
    gives the failure back. *)
Lemma side_error_message (sd : side) (e : error) :
  Error (errors_Wrap e (side_name sd +:+ " parsing error"))
    = side_name sd +:+ " parsing error: " +:+ Error e
  /\ Cause (errors_Wrap e (side_name sd +:+ " parsing error")) = Cause e.
Proof.
  destruct sd; split; reflexivity.
Qed.

End FirstFailure.

(** The example of the specification: [bids=[["x","1"]]] fails with an
    error that names [bids] and wraps the failure of [ParseFloat]. *)
Lemma parseOrderBook_unparsable_entry_example :
  let data := wire "{'bids':[['x','1']],'asks':[]}" in
  let err := errors_Wrap (NumError "ParseFloat" "x" ErrSyntax) "bids parsing error" in
  (@bitstamp_go.parseOrderBook offline a_moment data
     = Returns (None, Some err)
   /\ @part_000.parseOrderBook offline a_moment data
     = Returns (None, Some err))
  /\ String.prefix "bids" (Error err) = true.
Proof.
  pose (data := wire "{'bids':[['x','1']],'asks':[]}").
  pose proof
    (@parseOrderBook_unparsable_entry offline a_moment data
       (fst (@Unmarshal_map offline data)) (time.Time_Unix a_moment) Side_bids
       [] (JArray [JString "x"; JString "1"]) [] [] [] []
       (NumError "ParseFloat" "x" ErrSyntax)) as W.
  assert (W' := W ltac:(vm_compute; reflexivity)
                  ltac:(apply timestamp_absent; vm_compute; reflexivity)
                  ltac:(split; [vm_compute; reflexivity|];
                        split; [vm_compute; reflexivity|];
                        split; [constructor | discriminate])
                  ltac:(exact (@unparsable_price offline "x" [JString "1"] 0%float _ eq_refl))).
  split; [|vm_compute; reflexivity].
  vm_compute in W'. vm_compute. exact W'.
Defined.

(** C4 as stated fails: an element of arity three decodes, its third
    entry ignored, and no error is returned. *)
Lemma parseOrderBook_accepts_arity_three :
  let data := wire "{'bids':[['1','2','3']],'asks':[]}" in
  let book :=
    {| Time := time.Unix 1700000123 0; Asks := [];
       Bids := [ {| Price := 1; Amount := 2 |} ] |} in
  @bitstamp_go.parseOrderBook offline a_moment data
    = Returns (Some book, None)
  /\ @part_000.parseOrderBook offline a_moment data
    = Returns (Some book, None).
Proof.
  split; vm_compute; reflexivity.
Qed.

(** ** Panics of [parseOrderBook] *)

Section Panics.
Context `{GoLib}.

Lemma parse_sides_ill_typed (result : OrderBook) (bids asks : list JSON) (sd : side)
    (pre : list JSON) (el : JSON) (post : list JSON) (os oos : list Order) :
  match sd with
  | Side_bids => bids = pre ++ el :: post
  | Side_asks => asks = pre ++ el :: post /\ Forall2 good_order bids oos
  end ->
  Forall2 good_order pre os ->
  ill_typed_order el ->
  panicked (parse_sides result bids asks) = true.
Proof.
  intros Hsd Hpre Hel. unfold parse_sides.
  pose proof (parse_ill_typed pre post el os Hpre Hel) as Hp.
  destruct sd.
  - subst bids. destruct (parse (pre ++ el :: post)); [discriminate | reflexivity].
  - destruct Hsd as [-> Hbids]. rewrite (parse_good bids oos Hbids). cbn.
    destruct (parse (pre ++ el :: post)); [discriminate | reflexivity].
Qed.

(** In [part_000] a side that is missing or no array makes
    [parseOrderBook] return at the [errors.Wrap] of the function's [err]
    variable, which is nil there. *)
Lemma part_000_side_not_an_array (now : time.Time) (data : string)
    (m : gmap string JSON) (ts : Z) :
  Unmarshal_map data = (m, None) ->
  timestamp_of now m ts ->
  not_an_array (index_map m "bids") \/ not_an_array (index_map m "asks") ->
  part_000.parseOrderBook now data = Returns (None, None).
Proof.
  intros Hu Ht Hside. apply read_timestamp_of in Ht.
  unfold part_000.parseOrderBook. rewrite Hu, Ht.
  destruct (index_map m "bids") as [| | | |bids|] eqn:Eb; try reflexivity.
  destruct (index_map m "asks") as [| | | |asks|] eqn:Ea; try reflexivity.
  destruct Hside as [Hb | Ha]; [destruct (Hb bids) | destruct (Ha asks)]; reflexivity.
Qed.

(** C10, as the code has it.  On a document with no [timestamp] or a
    valid one: when [bids] or [asks] is missing or is no array,
    [parseOrderBook] of [bitstamp.go] panics and that of [part_000] does
    not; when both are arrays and the first element that does not decode
    is ill-typed (no array, or the price entry missing or no string, or
    the price accepted and the amount entry missing or no string), both
    files panic. *)
Theorem parseOrderBook_panics (now : time.Time) (data : string)
    (m : gmap string JSON) (ts : Z) :
  Unmarshal_map data = (m, None) ->
  timestamp_of now m ts ->
  (not_an_array (index_map m "bids") \/ not_an_array (index_map m "asks") ->
   panicked (bitstamp_go.parseOrderBook now data) = true
   /\ panicked (part_000.parseOrderBook now data) = false)
  /\ (forall (sd : side) (pre : list JSON) (el : JSON) (post others : list JSON)
             (os oos : list Order),
        first_failure_on m sd pre el post others os oos ->
        ill_typed_order el ->
        in_both_files (fun parseOrderBook =>
          panicked (parseOrderBook now data) = true)).
Proof.
  intros Hu Ht. split.
  - intros Hside. split.
    + pose proof (read_timestamp_of now m ts Ht) as Hr.
      unfold bitstamp_go.parseOrderBook. rewrite Hu, Hr.
      destruct (index_map m "bids") as [| | | |bids|] eqn:Eb; try reflexivity.
      destruct (index_map m "asks") as [| | | |asks|] eqn:Ea; try reflexivity.
      destruct Hside as [Hb | Ha]; [destruct (Hb bids) | destruct (Ha asks)]; reflexivity.
    + rewrite (part_000_side_not_an_array now data m ts Hu Ht Hside). reflexivity.
  - intros sd pre el post others os oos Hff Hel.
    assert (Forall2 good_order pre os) as Hpre by apply Hff.
    destruct (first_failure_sides m sd pre el post others os oos Hff)
      as (bids & asks & Hb & Ha & Hsd).
    destruct (parseOrderBook_reaches_sides now data m ts bids asks Hu Ht Hb Ha)
      as [E1 E2].
    split; [rewrite E1 | rewrite E2];
      apply (parse_sides_ill_typed _ bids asks sd pre el post os oos Hsd Hpre Hel).
Qed.

End Panics.

(** A document without [bids] panics in [bitstamp.go] and not in
    [part_000]; an element with a price and no amount panics in both. *)
Lemma parseOrderBook_panics_example :
  (panicked (@bitstamp_go.parseOrderBook offline a_moment (wire "{'asks':[]}")) = true
   /\ panicked (@part_000.parseOrderBook offline a_moment (wire "{'asks':[]}")) = false)
  /\ (panicked (@bitstamp_go.parseOrderBook offline a_moment (wire "{'bids':[['1']],'asks':[]}"))
        = true
      /\ panicked (@part_000.parseOrderBook offline a_moment (wire "{'bids':[['1']],'asks':[]}"))
        = true).
Proof.
  split.
  - pose (data := wire "{'asks':[]}").
    pose proof
      (@parseOrderBook_panics offline a_moment data
         (fst (@Unmarshal_map offline data)) (time.Time_Unix a_moment)
         ltac:(vm_compute; reflexivity)
         ltac:(apply timestamp_absent; vm_compute; reflexivity)) as W.
    apply (proj1 W). left. intros l. vm_compute. discriminate.
  - pose (data := wire "{'bids':[['1']],'asks':[]}").
    pose proof
      (@parseOrderBook_panics offline a_moment data
         (fst (@Unmarshal_map offline data)) (time.Time_Unix a_moment)
         ltac:(vm_compute; reflexivity)
         ltac:(apply timestamp_absent; vm_compute; reflexivity)) as W.
    apply (proj2 W Side_bids [] (JArray [JString "1"]) [] [] [] []).
    + split; [vm_compute; reflexivity|].
      split; [vm_compute; reflexivity|].
      split; [constructor | discriminate].
    + exact (@ill_no_amount offline "1" 1%float eq_refl).
Defined.

(** C10 as stated fails: the element [["x"]] is no array of two strings,
    and both files return an error for it instead of panicking, because
    the price text is refused before the amount entry is read. *)
Lemma parseOrderBook_short_element_returns_error :
  let data := wire "{'bids':[['x']],'asks':[]}" in
  let err := errors_Wrap (NumError "ParseFloat" "x" ErrSyntax) "bids parsing error" in
  @bitstamp_go.parseOrderBook offline a_moment data
    = Returns (None, Some err)
  /\ @part_000.parseOrderBook offline a_moment data
    = Returns (None, Some err).
Proof.
  split; vm_compute; reflexivity.
Qed.

(** [part_000] on a document without [bids]: neither a book nor an
    error. *)
Lemma part_000_missing_bids_example :
  @part_000.parseOrderBook offline a_moment (wire "{'asks':[]}")
    = Returns (None, None).
Proof.
  vm_compute. reflexivity.
Qed.

(** ** The [timestamp] field *)

Section Timestamp.
Context `{GoLib}.

Lemma ParseInt_error (s : string) (n : Z) (e : error) :
  strconv.ParseInt s = (n, Some e) ->
  exists k, e = NumError "ParseInt" s k.
Proof.
  unfold strconv.ParseInt. destruct s as [|c r]; [intros [= _ <-]; eauto|].
  destruct (strconv.ParseUint _) as [un [[]|]];
    repeat (match goal with |- context [if ?b then _ else _] => destruct b end);
    cbn; intros [= _ <-]; eauto.
Qed.

Lemma NumError_message (f n : string) (k : NumErr) :
  Error (NumError f n k) <> "invalid timestamp".
Proof.
  cbn. discriminate.
Qed.

(** The book made at unix second [s] is not after any well-formed
    instant that is not before the reading [now] it was taken from, and
    carries the whole second of any instant [now] is not before. *)
Lemma truncated_reading_bounds (now start finish : time.Time) :
  well_formed finish ->
  ~ time.Before now start ->
  ~ time.Before finish now ->
  time.Time_Unix start <= time.Time_Unix (time.Unix (time.Time_Unix now) 0)
  /\ ~ time.After (time.Unix (time.Time_Unix now) 0) finish.
Proof.
  intros Hf Hs He.
  assert (time.Unix (time.Time_Unix now) 0
          = {| time.sec := time.sec now; time.nsec := 0 |}) as ->.
  { unfold time.Unix, time.Time_Unix.
    change (0 / 1000000000) with 0. change (0 mod 1000000000) with 0.
    rewrite Z.add_0_r. reflexivity. }
  unfold well_formed, time.After, time.Before, time.Time_Unix in *.
  cbn [time.sec time.nsec] in *.
  split; lia.
Qed.

(** C5, as the code has it.  On a document whose [bids] and [asks]
    decode: without a [timestamp] the book carries the reading of the
    clock taken in the call, cut to whole seconds (so it is not after the
    call's end, and not before the second in which the call began); with
    a [timestamp] string that [ParseInt] accepts it carries exactly that
    unix time; with a [timestamp] string that [ParseInt] refuses the
    decode fails with the error of [ParseInt], whose message is not
    [invalid timestamp]; with a [timestamp] that is no string it fails
    with the error [invalid timestamp]. *)
Theorem parseOrderBook_timestamp (now : time.Time) (data : string)
    (m : gmap string JSON) (bids asks : list JSON) (obs oas : list Order) :
  Unmarshal_map data = (m, None) ->
  m !! "bids" = Some (JArray bids) ->
  m !! "asks" = Some (JArray asks) ->
  Forall2 good_order bids obs ->
  Forall2 good_order asks oas ->
  in_both_files (fun parseOrderBook =>
    match m !! "timestamp" with
    | None =>
        parseOrderBook now data =
        Returns (Some {| Time := time.Unix (time.Time_Unix now) 0;
                         Asks := oas; Bids := obs |}, None)
        /\ forall start finish : time.Time,
             well_formed finish ->
             ~ time.Before now start ->
             ~ time.Before finish now ->
             time.Time_Unix start <= time.Time_Unix (time.Unix (time.Time_Unix now) 0)
             /\ ~ time.After (time.Unix (time.Time_Unix now) 0) finish
    | Some (JString s) =>
        match strconv.ParseInt s with
        | (ts, None) =>
            parseOrderBook now data =
            Returns (Some {| Time := time.Unix ts 0; Asks := oas; Bids := obs |}, None)
        | (_, Some e) =>
            parseOrderBook now data = Returns (None, Some e)
            /\ Error e <> "invalid timestamp"
        end
    | Some _ =>
        parseOrderBook now data = Returns (None, Some (errors_New "invalid timestamp"))
    end).
Proof.
  intros Hu Hb Ha Gb Ga.
  assert (forall ts, timestamp_of now m ts ->
            in_both_files (fun parseOrderBook =>
              parseOrderBook now data =
              Returns (Some {| Time := time.Unix ts 0; Asks := oas; Bids := obs |}, None)))
    as Hgood.
  { intros ts Ht.
    exact (parseOrderBook_decodes now data m ts bids asks obs oas Hu Ht Hb Ha Gb Ga). }
  assert (forall r, read_timestamp now m None = ReturnErr r ->
            in_both_files (fun parseOrderBook => parseOrderBook now data = Returns (None, r)))
    as Hbad.
  { intros r Hr. split.
    - unfold bitstamp_go.parseOrderBook. rewrite Hu, Hr. reflexivity.
    - unfold part_000.parseOrderBook. rewrite Hu, Hr. reflexivity. }
  destruct (m !! "timestamp") as [obj|] eqn:Et.
  - destruct obj as [| b | f | s | l | o];
      try (apply Hbad; unfold read_timestamp; rewrite Et; reflexivity).
    destruct (strconv.ParseInt s) as [ts [e|]] eqn:Ep.
    + destruct (ParseInt_error s ts e Ep) as [k ->].
      destruct (Hbad (Some (NumError "ParseInt" s k))) as [B1 B2].
      { unfold read_timestamp. rewrite Et, Ep. reflexivity. }
      split; (split; [assumption | apply NumError_message]).
    + apply Hgood. eapply timestamp_present; eassumption.
  - destruct (Hgood (time.Time_Unix now)) as [G1 G2].
    { apply timestamp_absent. exact Et. }
    split; (split; [assumption | apply truncated_reading_bounds]).
Qed.

End Timestamp.

(** The example of the specification: [timestamp="1700000000"] gives
    exactly that unix time. *)
Lemma parseOrderBook_timestamp_example :
  let data := wire "{'timestamp':'1700000000','bids':[['100.5','2']],'asks':[]}" in
  let book :=
    {| Time := time.Unix 1700000000 0; Asks := [];
       Bids := [ {| Price := 100.5; Amount := 2 |} ] |} in
  @bitstamp_go.parseOrderBook offline a_moment data
    = Returns (Some book, None)
  /\ @part_000.parseOrderBook offline a_moment data
    = Returns (Some book, None).
Proof.
  pose (data := wire "{'timestamp':'1700000000','bids':[['100.5','2']],'asks':[]}").
  pose proof
    (@parseOrderBook_timestamp offline a_moment data
       (fst (@Unmarshal_map offline data))
       [JArray [JString "100.5"; JString "2"]] []
       [ {| Price := 100.5; Amount := 2 |} ] []
       ltac:(vm_compute; reflexivity)
       ltac:(vm_compute; reflexivity)
       ltac:(vm_compute; reflexivity)
       ltac:(repeat constructor)
       ltac:(constructor)) as W.
  vm_compute in W. vm_compute. exact W.
Defined.

(** C5 as stated fails twice.  A [timestamp] string that is no integer
    fails with the error of [ParseInt], not with [invalid timestamp]; and
    without a [timestamp] the book's time is the clock reading cut to
    whole seconds, which lies before the start of a call that began
    inside that second. *)
Lemma parseOrderBook_timestamp_counterexample :
  (@bitstamp_go.parseOrderBook offline a_moment (wire "{'timestamp':'abc','bids':[],'asks':[]}")
     = Returns (None, Some (NumError "ParseInt" "abc" ErrSyntax))
   /\ Error (NumError "ParseInt" "abc" ErrSyntax) <> "invalid timestamp")
  /\ (let start := {| time.sec := 1700000123; time.nsec := 455000000 |} in
      let finish := {| time.sec := 1700000123; time.nsec := 457000000 |} in
      ~ time.Before a_moment start
      /\ ~ time.Before finish a_moment
      /\ exists book,
           @bitstamp_go.parseOrderBook offline a_moment (wire "{'bids':[],'asks':[]}")
             = Returns (Some book, None)
           /\ time.Before (Time book) start).
Proof.
  split; [split|].
  - vm_compute. reflexivity.
  - cbn. discriminate.
  - cbn zeta. unfold time.Before, a_moment. cbn [time.sec time.nsec].
    split; [lia|]. split; [lia|].
    eexists. split; [vm_compute; reflexivity|].
    cbn. lia.
Qed.

(** ** [formatTrades] *)

Section TradeFacts.
Context `{GoLib}.

Lemma index_map_Some (m : gmap string JSON) (key : string) (x : JSON) :
  m !! key = Some x -> index_map m key = x.
Proof.
  intros Hk. unfold index_map. rewrite Hk. reflexivity.
Qed.

Ltac read_field Hk :=
  rewrite (index_map_Some _ _ _ Hk); cbn [assert_string mbind go_bind].

Lemma formatTrades_range_step (x : JSON) (t : Trade) (i : nat)
    (rest : list JSON) (trades : list Trade) :
  good_trade x t ->
  formatTrades_range i (x :: rest) trades
    = formatTrades_range (S i) rest (<[i:=t]> trades).
Proof.
  intros Hx. destruct Hx as [m p a d tid fp fa ts Hp Fp Ha Fa Hd Fd Ht].
  cbn [formatTrades_range assert_map mbind go_bind].
  read_field Hp. rewrite Fp.
  read_field Ha. rewrite Fa.
  read_field Hd. rewrite Fd.
  read_field Ht. reflexivity.
Qed.

Lemma formatTrades_range_unparsable (x : JSON) (e : error) (i : nat)
    (rest : list JSON) (trades : list Trade) :
  unparsable_trade x e ->
  formatTrades_range i (x :: rest) trades = Returns (trades, Some e).
Proof.
  intros Hx.
  destruct Hx as [m p f e Hp Fp | m p a fp f e Hp Fp Ha Fa
                 | m p a d fp fa n e Hp Fp Ha Fa Hd Fd];
    cbn [formatTrades_range assert_map mbind go_bind].
  - read_field Hp. rewrite Fp. reflexivity.
  - read_field Hp. rewrite Fp. read_field Ha. rewrite Fa. reflexivity.
  - read_field Hp. rewrite Fp. read_field Ha. rewrite Fa.
    read_field Hd. rewrite Fd. reflexivity.
Qed.

Lemma formatTrades_range_ill_typed (x : JSON) (i : nat)
    (rest : list JSON) (trades : list Trade) :
  ill_typed_trade x ->
  panicked (formatTrades_range i (x :: rest) trades) = true.
Proof.
  intros Hx.
  destruct Hx as [x Hx | m Hx | m p fp Hp Fp Hx | m p a fp fa Hp Fp Ha Fa Hx
                 | m p a d fp fa ts Hp Fp Ha Fa Hd Fd Hx];
    cbn [formatTrades_range].
  - rewrite (assert_map_not_an_object x Hx). reflexivity.
  - cbn [assert_map mbind go_bind].
    rewrite (assert_string_not_a_string _ Hx). reflexivity.
  - cbn [assert_map mbind go_bind]. read_field Hp. rewrite Fp.
    rewrite (assert_string_not_a_string _ Hx). reflexivity.
  - cbn [assert_map mbind go_bind]. read_field Hp. rewrite Fp.
    read_field Ha. rewrite Fa.
    rewrite (assert_string_not_a_string _ Hx). reflexivity.
  - cbn [assert_map mbind go_bind]. read_field Hp. rewrite Fp.
    read_field Ha. rewrite Fa. read_field Hd. rewrite Fd.
    rewrite (assert_string_not_a_string _ Hx). reflexivity.
Qed.

(** After the good elements [pre] the slice holds their trades, then the
    zero values it was made with. *)
Lemma formatTrades_range_skip (pre : list JSON) (ts : list Trade) :
  Forall2 good_trade pre ts ->
  forall (filled : list Trade) (k : nat) (tail : list JSON),
    formatTrades_range (length filled) (pre ++ tail)
      (filled ++ replicate (length pre + k) zero_Trade)
    = formatTrades_range (length filled + length pre) tail
        (filled ++ ts ++ replicate k zero_Trade).
Proof.
  induction 1 as [|x t pre ts Hx _ IH]; intros filled k tail.
  - cbn. rewrite Nat.add_0_r. reflexivity.
  - cbn [app length Nat.add replicate].
    rewrite (formatTrades_range_step x t) by assumption.
    rewrite insert_app_r_alt by lia.
    rewrite Nat.sub_diag. cbn [insert list_insert].
    replace (filled ++ t :: replicate (length pre + k) zero_Trade)
      with ((filled ++ [t]) ++ replicate (length pre + k) zero_Trade)
      by (rewrite <- app_assoc; reflexivity).
    replace (S (length filled)) with (length (filled ++ [t]))
      by (rewrite length_app; cbn; lia).
    rewrite IH. rewrite length_app. cbn [length].
    rewrite <- app_assoc. cbn [app].
    f_equal. lia.
Qed.

Lemma formatTrades_first (body : string) (pre : list JSON) (bad : JSON)
    (post : list JSON) (ts : list Trade) :
  Unmarshal_slice body = (pre ++ bad :: post, None) ->
  Forall2 good_trade pre ts ->
  formatTrades body
    = formatTrades_range (length pre) (bad :: post)
        (ts ++ replicate (S (length post)) zero_Trade).
Proof.
  intros Hu Hpre. unfold formatTrades. rewrite Hu.
  rewrite length_app. cbn [length].
  pose proof (formatTrades_range_skip pre ts Hpre [] (S (length post)) (bad :: post)) as E.
  cbn [app length Nat.add] in E. exact E.
Qed.

(** C3, as the code has it.  When the elements before the first one that
    does not decode are [pre], with trades [ts]: if that element has a
    [price], [amount] or [date] text that is refused with [e],
    [formatTrades] returns [e] together with a slice of the length of the
    input that holds [ts] and then zero values; if that element is no
    object or lacks a string in one of the four fields, [formatTrades]
    panics and returns nothing. *)
Theorem formatTrades_first_failure (body : string) (pre : list JSON) (bad : JSON)
    (post : list JSON) (ts : list Trade) :
  Unmarshal_slice body = (pre ++ bad :: post, None) ->
  Forall2 good_trade pre ts ->
  (forall e, unparsable_trade bad e ->
     formatTrades body
       = Returns (ts ++ replicate (S (length post)) zero_Trade, Some e))
  /\ (ill_typed_trade bad -> panicked (formatTrades body) = true).
Proof.
  intros Hu Hpre.
  rewrite (formatTrades_first body pre bad post ts Hu Hpre).
  split.
  - intros e He. apply formatTrades_range_unparsable. exact He.
  - intros Hb. apply formatTrades_range_ill_typed. exact Hb.
Qed.

(** A list of good elements decodes to their trades. *)
Lemma formatTrades_good (body : string) (elems : list JSON) (ts : list Trade) :
  Unmarshal_slice body = (elems, None) ->
  Forall2 good_trade elems ts ->
  formatTrades body = Returns (ts, None).
Proof.
  intros Hu Hall. unfold formatTrades. rewrite Hu.
  pose proof (formatTrades_range_skip elems ts Hall [] 0%nat []) as E.
  cbn [app length Nat.add] in E.
  rewrite Nat.add_0_r, app_nil_r in E. cbn [replicate] in E.
  rewrite app_nil_r in E. exact E.
Qed.

End TradeFacts.

(** Three trades on the wire, the second with a price that is no number:
    the first trade and two zero values come back with the error. *)
Lemma formatTrades_first_failure_example :
  let body :=
    wire ("[{'price':'10','amount':'1','date':'1600000000','tid':'55'},"
          +:+ "{'price':'zz','amount':'1','date':'1600000001','tid':'56'},"
          +:+ "{'price':'11','amount':'2','date':'1600000002','tid':'57'}]") in
  let first :=
    {| Trade_Time := time.Unix 1600000000 0; ID := "55";
       Trade_Price := 10; Trade_Amount := 1 |} in
  @formatTrades offline body
    = Returns ([first; zero_Trade; zero_Trade],
               Some (NumError "ParseFloat" "zz" ErrSyntax)).
Proof.
  pose (body :=
    wire ("[{'price':'10','amount':'1','date':'1600000000','tid':'55'},"
          +:+ "{'price':'zz','amount':'1','date':'1600000001','tid':'56'},"
          +:+ "{'price':'11','amount':'2','date':'1600000002','tid':'57'}]")).
  pose (elems := fst (@Unmarshal_slice offline body)).
  pose (first :=
    {| Trade_Time := time.Unix 1600000000 0; ID := "55";
       Trade_Price := 10%float; Trade_Amount := 1%float |}).
  pose (fields := fun i : nat =>
    match elems !! i with
    | Some (JObject m) => m
    | _ => ∅
    end).
  assert (@Unmarshal_slice offline body
          = ([JObject (fields 0%nat)] ++ JObject (fields 1%nat) :: [JObject (fields 2%nat)],
             None)) as Hu
    by (vm_compute; reflexivity).
  assert (@good_trade offline (JObject (fields 0%nat)) first) as G0.
  { apply (@good_trade_intro offline (fields 0%nat) "10" "1" "1600000000" "55"
             10%float 1%float 1600000000);
      vm_compute; reflexivity. }
  assert (@unparsable_trade offline (JObject (fields 1%nat))
            (NumError "ParseFloat" "zz" ErrSyntax)) as B1.
  { apply (@unparsable_trade_price offline (fields 1%nat) "zz" 0%float);
      vm_compute; reflexivity. }
  pose proof
    (@formatTrades_first_failure offline body
       [JObject (fields 0%nat)] (JObject (fields 1%nat)) [JObject (fields 2%nat)]
       [first] Hu ltac:(repeat constructor; exact G0)) as W.
  exact (proj1 W _ B1).
Defined.

(** C3 as stated fails: an element without [price] makes [formatTrades]
    panic, so no error and no output come back. *)
Lemma formatTrades_missing_field_panics :
  let body := wire "[{'amount':'1','date':'1600000000','tid':'55'}]" in
  @formatTrades offline body
    = Panics (InterfaceConversion "string")
  /\ ~ exists trades e,
         @formatTrades offline body = Returns (trades, Some e).
Proof.
  split.
  - vm_compute. reflexivity.
  - intros (trades & e & Hr). vm_compute in Hr. discriminate.
Qed.

(** The example of the specification: one trade with price 10, amount 1,
    id 55 at unix time 1600000000. *)
Lemma formatTrades_example :
  @formatTrades offline
    (wire "[{'price':'10','amount':'1','date':'1600000000','tid':'55'}]")
  = Returns ([ {| Trade_Time := time.Unix 1600000000 0; ID := "55";
                  Trade_Price := 10; Trade_Amount := 1 |} ], None).
Proof.
  vm_compute. reflexivity.
Qed.

(** ** The read loop *)

Section ReadLoopFacts.
Context `{GoLib}.

Lemma try_recv_empty {A} (ch : chan A) : buf ch = [] -> try_recv ch = None.
Proof.
  intros Hb. unfold try_recv. rewrite Hb. reflexivity.
Qed.

Lemma push_error_done (note : string) (err : error) (c : WsClient) :
  done (websocket_go.push_error note err c) = done c.
Proof.
  unfold websocket_go.push_error. destruct (try_send (Errors c) err); reflexivity.
Qed.

Lemma push_error_Errors (note : string) (err : error) (c : WsClient) :
  (cap (Errors c) <= length (buf (Errors c)) ->
   Errors (websocket_go.push_error note err c) = Errors c)%nat
  /\ (length (buf (Errors c)) < cap (Errors c) ->
      Errors (websocket_go.push_error note err c)
        = {| cap := cap (Errors c); buf := buf (Errors c) ++ [err] |})%nat.
Proof.
  unfold websocket_go.push_error, try_send.
  destruct (Nat.ltb_spec (length (buf (Errors c))) (cap (Errors c))); split; intros;
    try lia; reflexivity.
Qed.

Lemma push_error_sleeps (note : string) (err : error) (c : WsClient) :
  sleeps (websocket_go.push_error note err c) = sleeps c.
Proof.
  unfold websocket_go.push_error, sleeps.
  destruct (try_send (Errors c) err); [reflexivity|].
  cbn. rewrite omap_app. cbn. rewrite app_nil_r. reflexivity.
Qed.

Lemma push_error_ws_Close_count (note : string) (err : error) (c : WsClient) :
  ws_Close_count (websocket_go.push_error note err c) = ws_Close_count c.
Proof.
  unfold websocket_go.push_error, ws_Close_count.
  destruct (try_send (Errors c) err); [reflexivity|].
  cbn. rewrite List.filter_app, length_app. cbn. lia.
Qed.

(** C6, as the code has it.  In [websocket.go] an iteration that meets a
    failure ends in the next iteration or in the return of the loop,
    never at a send that waits; the error is appended to [Errors] when
    the buffer has room, and [Errors] is left as it was when the buffer
    is full.  In [part_001] the same failure on a full (or unbuffered)
    [Errors] leaves the loop waiting at the send. *)
Theorem push_to_Errors_never_blocks (w : world) (c : WsClient) (err : error) :
  buf (done c) = [] ->
  failure w err ->
  (exists c',
     (websocket_go.readLoop_iter w c = Next c' \/ websocket_go.readLoop_iter w c = Exit c')
     /\ (cap (Errors c) <= length (buf (Errors c)) -> Errors c' = Errors c)%nat
     /\ (length (buf (Errors c)) < cap (Errors c) ->
         Errors c' = {| cap := cap (Errors c); buf := buf (Errors c) ++ [err] |})%nat)
  /\ ((cap (Errors c) <= length (buf (Errors c)))%nat ->
      part_001.readLoop_iter w c = AtSend_Errors c err).
Proof.
  intros Hd Hf. split.
  - unfold websocket_go.readLoop_iter. rewrite (try_recv_empty _ Hd).
    destruct Hf as [message err Hr | message e err Hr Hu].
    + rewrite Hr.
      set (c1 := websocket_go.push_error _ err c).
      destruct (push_error_Errors "can't write to Errors chan read message err: " err c)
        as [Hfull Hroom].
      destruct (Temporary err) as [[|]|].
      * exists (emit (Slept websocket_go.readMsgTimeout) c1). auto.
      * exists (emit ws_Closed c1). auto.
      * exists (emit (Slept websocket_go.readMsgTimeout) c1). auto.
    + rewrite Hr, Hu.
      destruct (push_error_Errors "can't write to Errors chan unmarshal err: " err c)
        as [Hfull Hroom].
      eexists. split; [left; reflexivity|]. auto.
  - intros Hfull. unfold part_001.readLoop_iter. rewrite (try_recv_empty _ Hd).
    assert (try_send (Errors c) err = None) as Hs.
    { unfold try_send.
      destruct (Nat.ltb_spec (length (buf (Errors c))) (cap (Errors c))); [lia|reflexivity]. }
    destruct Hf as [message err Hr | message e err Hr Hu].
    + rewrite Hr, Hs. reflexivity.
    + rewrite Hr, Hu, Hs. reflexivity.
Qed.

End ReadLoopFacts.

(** A second failure while the first error is still in the queue: the
    loop goes on, the queue keeps the first error, the second is
    dropped. *)
Lemma push_to_Errors_never_blocks_example :
  let c := {| done := make 1; Errors := {| cap := 1; buf := [timeout_error] |}; log := [] |} in
  (exists c',
     (@websocket_go.readLoop_iter offline (failing_read closed_error) c = Next c'
      \/ @websocket_go.readLoop_iter offline (failing_read closed_error) c = Exit c')
     /\ Errors c' = Errors c)
  /\ @part_001.readLoop_iter offline (failing_read closed_error) c = AtSend_Errors c closed_error.
Proof.
  pose (c := {| done := make 1; Errors := {| cap := 1; buf := [timeout_error] |}; log := [] |}).
  pose proof
    (@push_to_Errors_never_blocks offline (failing_read closed_error) c closed_error
       eq_refl
       (@read_failure offline (failing_read closed_error) EmptyString closed_error eq_refl)) as [[c' (Ho & Hfull & _)] Hp].
  split.
  - exists c'. split; [exact Ho|]. apply Hfull. cbn. lia.
  - apply Hp. cbn. lia.
Defined.

(** C6 as stated fails in [part_001]: on the client [NewWsClient] makes
    there, a read failure leaves the loop waiting at [c.Errors <- err]
    until a consumer receives. *)
Lemma part_001_push_blocks :
  @part_001.NewWsClient None = (Some fresh_unbuffered, None)
  /\ @part_001.readLoop_iter offline
       (failing_read timeout_error) fresh_unbuffered
     = AtSend_Errors fresh_unbuffered timeout_error.
Proof.
  split; reflexivity.
Qed.

(** ** Retry and termination of the read loop *)

Section RetryFacts.
Context `{GoLib}.

Abbreviation run_ws := (run websocket_go.readLoop_iter websocket_go.Close).

Lemma sleeps_emit_Slept (d : Z) (c : WsClient) :
  sleeps (emit (Slept d) c) = sleeps c ++ [d].
Proof.
  unfold sleeps, emit. cbn. rewrite omap_app. reflexivity.
Qed.

(** A read failure that is retryable: the error is offered to [Errors],
    the loop sleeps [readMsgTimeout] and goes to its next iteration. *)
Lemma readLoop_iter_retry (w : world) (c : WsClient) :
  buf (done c) = [] ->
  read_fails true w ->
  exists c',
    websocket_go.readLoop_iter w c = Next c'
    /\ done c' = done c
    /\ sleeps c' = sleeps c ++ [websocket_go.readMsgTimeout].
Proof.
  intros Hd (message & err & Hr & Hk).
  unfold websocket_go.readLoop_iter. rewrite (try_recv_empty _ Hd), Hr.
  unfold retryable in Hk.
  eexists. split.
  - destruct (Temporary err) as [[|]|]; try discriminate; reflexivity.
  - split.
    + cbn. apply push_error_done.
    + rewrite sleeps_emit_Slept, push_error_sleeps. reflexivity.
Qed.

(** A read failure that is not retryable: the loop returns. *)
Lemma readLoop_iter_fatal (w : world) (c : WsClient) :
  buf (done c) = [] ->
  read_fails false w ->
  exists c', websocket_go.readLoop_iter w c = Exit c' /\ sleeps c' = sleeps c.
Proof.
  intros Hd (message & err & Hr & Hk).
  unfold websocket_go.readLoop_iter. rewrite (try_recv_empty _ Hd), Hr.
  unfold retryable in Hk.
  destruct (Temporary err) as [[|]|]; try discriminate.
  eexists. split; [reflexivity|].
  unfold sleeps, emit. cbn. rewrite omap_app. cbn. rewrite app_nil_r.
  apply push_error_sleeps.
Qed.

Lemma run_app (iter : world -> WsClient -> outcome) (close : WsClient -> blocking WsClient)
    (acts1 acts2 : list action) (s : system) :
  run iter close (acts1 ++ acts2) s = run iter close acts2 (run iter close acts1 s).
Proof.
  revert s. induction acts1 as [|a acts1 IH]; intros s; [reflexivity|].
  cbn. apply IH.
Qed.

Lemma retries_run (ws : list world) :
  Forall (read_fails true) ws ->
  forall c, buf (done c) = [] ->
    exists c',
      run_ws (RunLoop <$> ws) (running c) = running c'
      /\ done c' = done c
      /\ sleeps c' = sleeps c ++ replicate (length ws) websocket_go.readMsgTimeout.
Proof.
  induction 1 as [|w ws Hw _ IH]; intros c Hd.
  - exists c. cbn. rewrite app_nil_r. auto.
  - destruct (readLoop_iter_retry w c Hd Hw) as (c1 & E1 & D1 & S1).
    destruct (IH c1) as (c' & E' & D' & S'); [congruence|].
    exists c'. cbn. rewrite E1. cbn. split; [exact E'|]. split; [congruence|].
    rewrite S', S1, <- app_assoc. reflexivity.
Qed.

(** C7, as the code has it ([websocket.go]).  With no shutdown flag
    pending, any number of read failures that are retryable leaves the
    loop running, having slept the fixed [readMsgTimeout] of 100 ms once
    per failure; a read failure that is not retryable, whenever it comes,
    makes the loop return without a further sleep. *)
Theorem read_failures_retry_or_stop (ws : list world) (c : WsClient) :
  buf (done c) = [] ->
  Forall (read_fails true) ws ->
  websocket_go.readMsgTimeout = 100 * 1000000
  /\ (let s := run_ws (RunLoop <$> ws) (running c) in
      loop s = Running
      /\ sleeps (client s) = sleeps c ++ replicate (length ws) websocket_go.readMsgTimeout)
  /\ (forall w, read_fails false w ->
        let s := run_ws (RunLoop <$> (ws ++ [w])) (running c) in
        loop s = Returned
        /\ sleeps (client s) = sleeps c ++ replicate (length ws) websocket_go.readMsgTimeout).
Proof.
  intros Hd Hws.
  destruct (retries_run ws Hws c Hd) as (c' & E' & D' & S').
  split; [reflexivity|]. split.
  - cbn zeta. rewrite E'. cbn. auto.
  - intros w Hw. cbn zeta.
    rewrite fmap_app, run_app, E'. cbn.
    destruct (readLoop_iter_fatal w c') as (c2 & E2 & S2); [congruence | exact Hw |].
    rewrite E2. cbn. split; [reflexivity|]. congruence.
Qed.

End RetryFacts.

(** Three timeouts, then a closed connection: three sleeps of 100 ms and
    the loop returns. *)
Lemma read_failures_retry_or_stop_example :
  let timeouts := replicate 3 (failing_read timeout_error) in
  let s3 := run (@websocket_go.readLoop_iter offline) websocket_go.Close
              (RunLoop <$> timeouts) (running fresh) in
  let s4 := run (@websocket_go.readLoop_iter offline) websocket_go.Close
              (RunLoop <$> (timeouts ++ [failing_read closed_error])) (running fresh) in
  (loop s3 = Running /\ sleeps (client s3) = [100000000; 100000000; 100000000])
  /\ (loop s4 = Returned /\ sleeps (client s4) = [100000000; 100000000; 100000000]).
Proof.
  pose proof
    (@read_failures_retry_or_stop offline (replicate 3 (failing_read timeout_error)) fresh
       eq_refl
       ltac:(repeat constructor; exists EmptyString, timeout_error; split; reflexivity))
    as (_ & H3 & H4).
  split.
  - exact H3.
  - apply (H4 (failing_read closed_error)).
    exists EmptyString, closed_error. split; reflexivity.
Defined.

(** C7 as stated fails in [part_001]: a read failure whose error says it
    is not temporary does not end the loop (once a consumer has taken the
    error the loop runs on), and a failure that is temporary is not
    followed by a sleep. *)
Lemma part_001_no_classification :
  let after_failure (err : error) :=
    run (@part_001.readLoop_iter offline) part_001.Close
      [RunLoop (failing_read err); RecvErrors] (running fresh_unbuffered) in
  (loop (after_failure closed_error) = Running
   /\ log (client (after_failure closed_error)) = [ErrorTaken closed_error])
  /\ (loop (after_failure timeout_error) = Running
      /\ sleeps (client (after_failure timeout_error)) = []).
Proof.
  repeat split; reflexivity.
Qed.

(** ** [Close] and the release of the connection *)

Section CloseFacts.
Context `{GoLib}.

Lemma ws_Close_count_emit (x : effect) (c : WsClient) :
  ws_Close_count (emit x c)
    = (ws_Close_count c + if is_ws_Closed x then 1 else 0)%nat.
Proof.
  unfold ws_Close_count, emit. cbn. rewrite List.filter_app, length_app. cbn.
  destruct (is_ws_Closed x); reflexivity.
Qed.

(** [Close] of [websocket.go] completes on every client with a flag in
    order, leaves the connection and [Errors] alone, and leaves the flag
    set. *)
Lemma Close_completes (c : WsClient) :
  flag_ok c ->
  exists c',
    websocket_go.Close c = Done c'
    /\ ws_Close_count c' = ws_Close_count c
    /\ Errors c' = Errors c
    /\ cap (done c') = 1%nat
    /\ buf (done c') = [true].
Proof.
  intros [Hcap Hbuf]. unfold websocket_go.Close, try_send. rewrite Hcap.
  destruct Hbuf as [Eb | Eb]; rewrite Eb; cbn.
  - eexists. split; [reflexivity|]. cbn. auto.
  - eexists. split; [reflexivity|]. rewrite ws_Close_count_emit. cbn.
    repeat split; auto; lia.
Qed.

Lemma flag_ok_push_error (note : string) (err : error) (c : WsClient) :
  flag_ok c -> flag_ok (websocket_go.push_error note err c).
Proof.
  unfold flag_ok. rewrite push_error_done. auto.
Qed.

Lemma flag_ok_emit (x : effect) (c : WsClient) :
  flag_ok c -> flag_ok (emit x c).
Proof.
  unfold flag_ok, emit. cbn. auto.
Qed.

Lemma readLoop_iter_released_once (w : world) (c : WsClient) :
  released_once (running c) ->
  released_once (after (websocket_go.readLoop_iter w c)).
Proof.
  unfold released_once. cbn [running client loop]. intros [Hflag Hcount].
  unfold websocket_go.readLoop_iter, try_recv.
  destruct Hflag as [Hcap [Eb | Eb]]; rewrite Eb.
  - assert (flag_ok c) as Hflag by (split; auto).
    destruct (ReadMessage w) as [message [err|]].
    + pose proof (flag_ok_push_error
                    "can't write to Errors chan read message err: " err c Hflag) as Hf.
      pose proof (push_error_ws_Close_count
                    "can't write to Errors chan read message err: " err c) as Hc.
      destruct (Temporary err) as [[|]|]; cbn [after client loop];
        rewrite ws_Close_count_emit, Hc; cbn [is_ws_Closed];
        (split; [apply flag_ok_emit; exact Hf | lia]).
    + destruct (Unmarshal_WsEvent message) as [e [err|]]; cbn [after client loop].
      * rewrite push_error_ws_Close_count.
        split; [apply flag_ok_push_error; exact Hflag | exact Hcount].
      * split; [exact Hflag | exact Hcount].
  - cbn [after client loop]. rewrite ws_Close_count_emit. cbn [is_ws_Closed].
    split; [|unfold ws_Close_count, set_done in *; cbn [log] in *; lia].
    apply flag_ok_emit. split; [exact Hcap | left; reflexivity].
Qed.

Lemma flag_ok_set_Errors (ch : chan error) (c : WsClient) :
  flag_ok c -> flag_ok (set_Errors ch c).
Proof.
  unfold flag_ok, set_Errors. cbn. auto.
Qed.

Lemma ws_Close_count_set_Errors (ch : chan error) (c : WsClient) :
  ws_Close_count (set_Errors ch c) = ws_Close_count c.
Proof.
  reflexivity.
Qed.

Lemma step_released_once (a : action) (s s' : system) :
  released_once s ->
  step websocket_go.readLoop_iter websocket_go.Close a s = Some s' ->
  released_once s'.
Proof.
  intros Hs Hstep. destruct s as [c l]. destruct Hs as [Hflag Hcount].
  cbn [client loop] in Hflag, Hcount.
  destruct a as [w | | |]; cbv beta iota delta [step client loop] in Hstep.
  - destruct l; try discriminate. injection Hstep as <-.
    apply readLoop_iter_released_once. split; assumption.
  - destruct (Close_completes c Hflag) as (c' & E & Hc & _ & Hcap' & Hbuf).
    rewrite E in Hstep. injection Hstep as <-.
    split; cbn [client loop].
    + split; auto.
    + rewrite Hc. exact Hcount.
  - destruct l; destruct (try_recv (Errors c)) as [[e0 ch]|];
      try discriminate; injection Hstep as <-;
      (split; cbn [client loop];
       [ apply flag_ok_emit; try apply flag_ok_set_Errors; exact Hflag
       | rewrite ws_Close_count_emit; cbn [is_ws_Closed];
         rewrite ?ws_Close_count_set_Errors; cbv beta iota in Hcount |- *; lia ]).
  - destruct l; try discriminate. injection Hstep as <-.
    split; cbn [client loop].
    + apply flag_ok_emit. exact Hflag.
    + rewrite ws_Close_count_emit. cbn [is_ws_Closed].
      cbv beta iota in Hcount |- *. lia.
Qed.

Lemma run_released_once (acts : list action) (s : system) :
  released_once s ->
  released_once (run websocket_go.readLoop_iter websocket_go.Close acts s).
Proof.
  revert s. induction acts as [|a acts IH]; intros s Hs; [exact Hs|].
  cbn. apply IH.
  destruct (step websocket_go.readLoop_iter websocket_go.Close a s) as [s'|] eqn:E.
  - cbn. eapply step_released_once; eassumption.
  - exact Hs.
Qed.

Lemma Closes_flag (n : nat) (c : WsClient) :
  flag_ok c ->
  buf (done (Closes websocket_go.Close (S n) c)) = [true]
  /\ ws_Close_count (Closes websocket_go.Close (S n) c) = ws_Close_count c.
Proof.
  revert c. induction n as [|n IH]; intros c Hflag.
  - cbn. destruct (Close_completes c Hflag) as (c' & E & Hc & _ & _ & Hbuf).
    rewrite E. auto.
  - change (Closes websocket_go.Close (S (S n)) c)
      with (match websocket_go.Close c with
            | Done c' => Closes websocket_go.Close (S n) c'
            | Blocks => Closes websocket_go.Close (S n) c
            end).
    destruct (Close_completes c Hflag) as (c' & E & Hc & _ & Hcap' & Hbuf).
    rewrite E.
    destruct (IH c') as [Hone Hsame]; [split; auto|].
    split; [exact Hone | congruence].
Qed.

(** C8, as the code has it ([websocket.go]).  After any schedule of loop
    iterations, [Close] calls and receives that starts from the client
    [NewWsClient] makes: a further [Close] completes; any number of
    [Close] calls in a row leaves exactly one shutdown flag pending and
    does not touch the connection; and [c.ws.Close()] has run once if the
    read loop has returned and not at all otherwise. *)
Theorem Close_signals_once (acts : list action) :
  let s := run websocket_go.readLoop_iter websocket_go.Close acts (running fresh) in
  (exists c', websocket_go.Close (client s) = Done c')
  /\ (forall n,
        buf (done (Closes websocket_go.Close (S n) (client s))) = [true]
        /\ ws_Close_count (Closes websocket_go.Close (S n) (client s))
           = ws_Close_count (client s))
  /\ ws_Close_count (client s) = match loop s with Returned => 1%nat | _ => 0%nat end.
Proof.
  cbn zeta.
  destruct (run_released_once acts (running fresh)) as [Hflag Hcount].
  { split; [split; [reflexivity | left; reflexivity] | reflexivity]. }
  split; [|split].
  - destruct (Close_completes _ Hflag) as (c' & E & _).
    exists c'. exact E.
  - intros n. apply Closes_flag. exact Hflag.
  - exact Hcount.
Qed.

(** Once the flag is pending the loop returns at its next iteration,
    taking the flag and releasing the connection. *)
Lemma readLoop_iter_sees_flag (w : world) (c : WsClient) :
  buf (done c) = [true] ->
  websocket_go.readLoop_iter w c
    = Exit (emit ws_Closed (set_done {| cap := cap (done c); buf := [] |} c)).
Proof.
  intros Eb. unfold websocket_go.readLoop_iter, try_recv. rewrite Eb. reflexivity.
Qed.

End CloseFacts.

(** C8 as stated fails in [part_001]: the first [Close] on the client
    [NewWsClient] makes there completes, and a second one, called before
    the loop has taken the flag, blocks. *)
Lemma part_001_second_Close_blocks :
  exists c1,
    part_001.Close fresh_unbuffered = Done c1
    /\ part_001.Close c1 = Blocks.
Proof.
  eexists. split; reflexivity.
Qed.

(** [Close] twice, one iteration, [Close] again on [websocket.go]: the
    loop has returned, the connection was released once, and the flag of
    the last call stays in its slot. *)
Lemma Close_schedule_example :
  let s := run (@websocket_go.readLoop_iter offline) websocket_go.Close
             [CallClose; CallClose; RunLoop (failing_read timeout_error); CallClose]
             (running fresh) in
  loop s = Returned
  /\ ws_Close_count (client s) = 1%nat
  /\ buf (done (client s)) = [true].
Proof.
  repeat split; reflexivity.
Qed.

(** ** The feed *)

Section FeedFacts.
Context `{GoLib}.

(** A decoder that returns an error in [part_000] returns the same in
    [bitstamp.go]: the two differ only on a side that is no array, where
    [part_000] returns no error. *)
Lemma read_timestamp_GoOn (now : time.Time) (m : gmap string JSON) (ts : Z)
    (err : option error) :
  read_timestamp now m None = GoOn ts err -> err = None.
Proof.
  unfold read_timestamp.
  destruct (m !! "timestamp") as [[| | |s| |]|]; try discriminate.
  - destruct (strconv.ParseInt s) as [n [e|]]; [discriminate|].
    intros [= _ <-]. reflexivity.
  - intros [= _ <-]. reflexivity.
Qed.

Lemma parseOrderBook_error_agrees (now : time.Time) (data : string)
    (ob : option OrderBook) (e : error) :
  part_000.parseOrderBook now data = Returns (ob, Some e) ->
  bitstamp_go.parseOrderBook now data = Returns (ob, Some e).
Proof.
  unfold part_000.parseOrderBook, bitstamp_go.parseOrderBook.
  destruct (Unmarshal_map data) as [m [e0|]]; [auto|].
  destruct (read_timestamp now m None) as [ts err|r] eqn:Et; [|auto].
  apply read_timestamp_GoOn in Et. subst err.
  destruct (index_map m "bids") as [| | | |bids|]; try discriminate.
  destruct (index_map m "asks") as [| | | |asks|]; try discriminate.
  auto.
Qed.

(** In [part_000] an error from [Errors] ends the feed: it
    unsubscribes, ignoring the result, closes the client once and returns
    nil. *)
Lemma part_000_error_ends_feed (symb : string) (err : error) (s : feed) :
  part_000.deliver_iter symb (part_000.FromErrors err) s
    = Returns (Finished
                 (call c_Close (call (c_Unsubscribe ("order_book_" +:+ symb)) s)) None)
  /\ Close_count (call c_Close (call (c_Unsubscribe ("order_book_" +:+ symb)) s))
     = S (Close_count s).
Proof.
  split; [reflexivity|].
  unfold Close_count, call. cbn.
  rewrite !List.filter_app, !length_app. cbn. lia.
Qed.

(** In [bitstamp.go] the stop signal ends the feed: it unbinds,
    unsubscribes, closes the client once and returns nil. *)
Lemma bitstamp_go_stop_ends_feed (s : feed) :
  bitstamp_go.deliver_iter bitstamp_go.FromStop s
    = Returns (Finished
                 (call c_Close
                    (call (c_Unsubscribe "order_book") (call (c_Unbind "data") s)))
                 None)
  /\ Close_count (call c_Close
                    (call (c_Unsubscribe "order_book") (call (c_Unbind "data") s)))
     = S (Close_count s).
Proof.
  split; [reflexivity|].
  unfold Close_count, call. cbn.
  rewrite !List.filter_app, !length_app. cbn. lia.
Qed.

(** C2 on [part_000].  The arm [case <-stopChan:] of the [select] has no
    statements and Go does not fall through to the next arm: however
    often the stop signal is received, [SubscribeOrderBook] makes no call
    on the client after its [Subscribe], and stays in its loop. *)
Theorem part_000_stop_signal_ignored (symb : string) (n : nat) :
  part_000.SubscribeOrderBook None symb (replicate n part_000.FromStop)
    = Returns (Delivering (call (c_Subscribe ("order_book_" +:+ symb)) idle)).
Proof.
  unfold part_000.SubscribeOrderBook.
  generalize (call (c_Subscribe ("order_book_" +:+ symb)) idle) as s.
  induction n as [|n IH]; intros s; [reflexivity|].
  cbn [replicate part_000.deliver part_000.deliver_iter mbind go_bind].
  apply IH.
Qed.

End FeedFacts.

(** * Further properties *)

(** ** Every element is of one of the three kinds *)

Section Classification.
Context `{GoLib}.

Lemma string_or_not (x : JSON) : (exists s, x = JString s) \/ not_a_string x.
Proof.
  destruct x; try (right; intros s; discriminate). left. eauto.
Qed.

(** An element of [bids] or [asks] decodes, or is refused by
    [ParseFloat], or makes [parse] panic. *)
Lemma order_kinds (x : JSON) :
  (exists o, good_order x o) \/ (exists e, unparsable_order x e) \/ ill_typed_order x.
Proof.
  destruct x as [| b | f | s | l | m];
    try (right; right; apply ill_not_array; intros l'; discriminate).
  destruct l as [|x0 rest]; [right; right; apply ill_no_price|].
  destruct (string_or_not x0) as [[p ->] | Hx0];
    [|right; right; apply ill_price_type; exact Hx0].
  destruct (ParseFloat p) as [fp [e|]] eqn:Ep.
  { right; left. exists e. eapply unparsable_price. exact Ep. }
  destruct rest as [|x1 rest]; [right; right; eapply ill_no_amount; exact Ep|].
  destruct (string_or_not x1) as [[a ->] | Hx1];
    [|right; right; eapply ill_amount_type; eassumption].
  destruct (ParseFloat a) as [fa [e|]] eqn:Ea.
  - right; left. exists e. eapply unparsable_amount; eassumption.
  - left. eexists. eapply good_order_intro; eassumption.
Qed.

(** What [parse] returns without an error is the decoding of every
    element of its input, in order. *)
Lemma parse_range_sound (arr : list JSON) :
  forall (acc res : list Order),
    parse_range arr acc = Returns (res, None) ->
    exists os, res = acc ++ os /\ Forall2 good_order arr os.
Proof.
  induction arr as [|x arr IH]; intros acc res Hr.
  - cbn in Hr. injection Hr as <-. exists []. rewrite app_nil_r. split; constructor.
  - destruct (order_kinds x) as [[o Ho] | [[e He] | Hill]].
    + rewrite (parse_range_step x o arr acc Ho) in Hr.
      destruct (IH _ _ Hr) as (os & -> & Hos).
      exists (o :: os). rewrite <- app_assoc. split; [reflexivity|].
      constructor; assumption.
    + rewrite (parse_range_unparsable x e arr acc He) in Hr. discriminate.
    + pose proof (parse_range_ill_typed x arr acc Hill) as Hp.
      rewrite Hr in Hp. discriminate.
Qed.

Lemma parse_sound (arr : list JSON) (res : list Order) :
  parse arr = Returns (res, None) -> Forall2 good_order arr res.
Proof.
  intros Hr. destruct (parse_range_sound arr [] res Hr) as (os & -> & Hos).
  exact Hos.
Qed.

(** [parse] returns its slice or an error, never both. *)
Lemma parse_error_nil (arr : list JSON) :
  forall (acc res : list Order) (e : error),
    parse_range arr acc = Returns (res, Some e) -> res = [].
Proof.
  induction arr as [|x arr IH]; intros acc res e Hr.
  - discriminate.
  - destruct (order_kinds x) as [[o Ho] | [[e' He] | Hill]].
    + rewrite (parse_range_step x o arr acc Ho) in Hr. eapply IH. exact Hr.
    + rewrite (parse_range_unparsable x e' arr acc He) in Hr.
      injection Hr as <- _. reflexivity.
    + pose proof (parse_range_ill_typed x arr acc Hill) as Hp.
      rewrite Hr in Hp. discriminate.
Qed.

Lemma read_timestamp_GoOn_of (now : time.Time) (m : gmap string JSON) (ts : Z)
    (err : option error) :
  read_timestamp now m None = GoOn ts err -> timestamp_of now m ts /\ err = None.
Proof.
  unfold read_timestamp.
  destruct (m !! "timestamp") as [[| | |s| |]|] eqn:Et; try discriminate.
  - destruct (strconv.ParseInt s) as [n [e|]] eqn:Ep; [discriminate|].
    intros [= <- <-]. split; [|reflexivity].
    eapply timestamp_present; eassumption.
  - intros [= <- <-]. split; [|reflexivity]. apply timestamp_absent. exact Et.
Qed.

Lemma read_timestamp_ReturnErr (now : time.Time) (m : gmap string JSON)
    (r : option error) :
  read_timestamp now m None = ReturnErr r -> exists e, r = Some e.
Proof.
  unfold read_timestamp.
  destruct (m !! "timestamp") as [[| | |s| |]|]; try discriminate;
    try (intros [= <-]; eexists; reflexivity).
  destruct (strconv.ParseInt s) as [n [e|]]; [|discriminate].
  intros [= <-]. eauto.
Qed.

Lemma index_map_JArray (m : gmap string JSON) (key : string) (l : list JSON) :
  index_map m key = JArray l -> m !! key = Some (JArray l).
Proof.
  unfold index_map. destruct (m !! key) as [x|]; cbn; [intros ->; reflexivity|discriminate].
Qed.

(** What [parse_sides] returns is a book or an error, one of the two. *)
Lemma parse_sides_one_of (result : OrderBook) (bids asks : list JSON)
    (ob : option OrderBook) (err : option error) :
  parse_sides result bids asks = Returns (ob, err) ->
  (exists book, ob = Some book /\ err = None
                /\ Time book = Time result
                /\ Forall2 good_order bids (Bids book)
                /\ Forall2 good_order asks (Asks book))
  \/ (exists e, ob = None /\ err = Some e).
Proof.
  unfold parse_sides.
  destruct (parse bids) as [[pb [eb|]]|p] eqn:Eb; cbn; try discriminate.
  { intros [= <- <-]. right. eauto. }
  destruct (parse asks) as [[pa [ea|]]|p] eqn:Ea; cbn; try discriminate.
  { intros [= <- <-]. right. eauto. }
  intros [= <- <-]. left. eexists. repeat split; cbn.
  - apply parse_sound. exact Eb.
  - apply parse_sound. exact Ea.
Qed.

End Classification.

(** ** What [parseOrderBook] returns *)

Section ParseOrderBookReturns.
Context `{GoLib}.

(** Where both files stand after the document and the timestamp are
    read. *)
Lemma bitstamp_go_parseOrderBook_cases (now : time.Time) (data : string)
    (ob : option OrderBook) (err : option error) :
  bitstamp_go.parseOrderBook now data = Returns (ob, err) ->
  (exists e, ob = None /\ err = Some e
             /\ part_000.parseOrderBook now data = Returns (None, Some e)
             /\ (snd (Unmarshal_map data) = Some e
                 \/ exists m, Unmarshal_map data = (m, None)
                              /\ read_timestamp now m None = ReturnErr (Some e)))
  \/ (exists m ts bids asks,
        Unmarshal_map data = (m, None)
        /\ timestamp_of now m ts
        /\ m !! "bids" = Some (JArray bids)
        /\ m !! "asks" = Some (JArray asks)
        /\ parse_sides {| Time := time.Unix ts 0; Asks := []; Bids := [] |} bids asks
           = Returns (ob, err)).
Proof.
  unfold bitstamp_go.parseOrderBook, part_000.parseOrderBook.
  destruct (Unmarshal_map data) as [m [e0|]] eqn:Eu.
  { intros [= <- <-]. left. exists e0. cbn. auto. }
  destruct (read_timestamp now m None) as [ts err'|r] eqn:Et.
  - destruct (read_timestamp_GoOn_of now m ts err' Et) as [Hts ->].
    destruct (index_map m "bids") as [| | | |bids|] eqn:Eb; try discriminate.
    destruct (index_map m "asks") as [| | | |asks|] eqn:Ea; try discriminate.
    cbn. intros Hs. right. exists m, ts, bids, asks.
    repeat split; auto using index_map_JArray.
  - destruct (read_timestamp_ReturnErr now m r Et) as [e ->].
    intros [= <- <-]. left. exists e. repeat split. right. eauto.
Qed.

(** X1.  A book that [parseOrderBook] of either file returns is the
    document read element by element: the document decoded, both sides
    are arrays, every element of [bids] and of [asks] decoded to the
    order at the same position of the book, and the time is that of the
    [timestamp] field or of the clock. *)
Theorem parseOrderBook_book_is_the_document (now : time.Time) (data : string)
    (book : OrderBook) :
  bitstamp_go.parseOrderBook now data = Returns (Some book, None)
  \/ part_000.parseOrderBook now data = Returns (Some book, None) ->
  exists m ts bids asks,
    Unmarshal_map data = (m, None)
    /\ timestamp_of now m ts
    /\ m !! "bids" = Some (JArray bids)
    /\ m !! "asks" = Some (JArray asks)
    /\ Time book = time.Unix ts 0
    /\ Forall2 good_order bids (Bids book)
    /\ Forall2 good_order asks (Asks book).
Proof.
  intros Hr.
  assert (exists m ts bids asks,
            Unmarshal_map data = (m, None)
            /\ timestamp_of now m ts
            /\ m !! "bids" = Some (JArray bids)
            /\ m !! "asks" = Some (JArray asks)
            /\ parse_sides {| Time := time.Unix ts 0; Asks := []; Bids := [] |} bids asks
               = Returns (Some book, None))
    as (m & ts & bids & asks & Hu & Ht & Hb & Ha & Hs).
  { destruct Hr as [Hr | Hr].
    - destruct (bitstamp_go_parseOrderBook_cases now data _ _ Hr)
        as [(e & Hob & _) | Hcase]; [discriminate | exact Hcase].
    - revert Hr. unfold part_000.parseOrderBook.
      destruct (Unmarshal_map data) as [m [e0|]] eqn:Eu; [discriminate|].
      destruct (read_timestamp now m None) as [ts err'|r] eqn:Et; [|discriminate].
      destruct (read_timestamp_GoOn_of now m ts err' Et) as [Hts ->].
      destruct (index_map m "bids") as [| | | |bids|] eqn:Eb; try discriminate.
      destruct (index_map m "asks") as [| | | |asks|] eqn:Ea; try discriminate.
      intros Hs. exists m, ts, bids, asks.
      repeat split; auto using index_map_JArray. }
  destruct (parse_sides_one_of _ bids asks _ _ Hs)
    as [(book' & [= <-] & _ & Htime & Gb & Ga) | (e & _ & He)]; [|discriminate].
  exists m, ts, bids, asks. repeat split; assumption.
Qed.

(** X2.  Whenever [parseOrderBook] of [bitstamp.go] returns, it returns
    a book and no error, or an error and no book. *)
Theorem bitstamp_go_parseOrderBook_book_or_error (now : time.Time) (data : string)
    (ob : option OrderBook) (err : option error) :
  bitstamp_go.parseOrderBook now data = Returns (ob, err) ->
  (exists book, ob = Some book /\ err = None)
  \/ (exists e, ob = None /\ err = Some e).
Proof.
  intros Hr.
  destruct (bitstamp_go_parseOrderBook_cases now data ob err Hr)
    as [(e & -> & -> & _) | (m & ts & bids & asks & _ & _ & _ & _ & Hs)].
  - right. eauto.
  - destruct (parse_sides_one_of _ bids asks ob err Hs)
      as [(book & -> & -> & _) | (e & -> & ->)]; eauto.
Qed.

(** X3.  [parseOrderBook] of [part_000] returns neither a book nor an
    error exactly when the document decodes, its timestamp is absent or
    valid, and [bids] or [asks] is missing or is no array. *)
Theorem part_000_parseOrderBook_returns_nothing_iff (now : time.Time) (data : string) :
  part_000.parseOrderBook now data = Returns (None, None)
  <-> exists m ts,
        Unmarshal_map data = (m, None)
        /\ timestamp_of now m ts
        /\ (not_an_array (index_map m "bids") \/ not_an_array (index_map m "asks")).
Proof.
  split.
  - unfold part_000.parseOrderBook.
    destruct (Unmarshal_map data) as [m [e0|]] eqn:Eu; [discriminate|].
    destruct (read_timestamp now m None) as [ts err'|r] eqn:Et.
    + destruct (read_timestamp_GoOn_of now m ts err' Et) as [Hts ->].
      intros Hr. exists m, ts. split; [reflexivity|]. split; [exact Hts|].
      destruct (index_map m "bids") as [| | | |bids|] eqn:Eb;
        try (left; intros l; discriminate).
      destruct (index_map m "asks") as [| | | |asks|] eqn:Ea;
        try (right; intros l; discriminate).
      destruct (parse_sides_one_of _ bids asks _ _ Hr)
        as [(book & Hb & _) | (e & _ & He)]; discriminate.
    + destruct (read_timestamp_ReturnErr now m r Et) as [e ->]. discriminate.
  - intros (m & ts & Hu & Ht & Hside).
    exact (part_000_side_not_an_array now data m ts Hu Ht Hside).
Qed.

(** X4.  Whatever [parseOrderBook] of [bitstamp.go] returns,
    [parseOrderBook] of [part_000] returns the same on the same document
    and clock reading: the two differ only where [bitstamp.go] panics. *)
Theorem part_000_parseOrderBook_extends_bitstamp_go (now : time.Time) (data : string)
    (r : option OrderBook * option error) :
  bitstamp_go.parseOrderBook now data = Returns r ->
  part_000.parseOrderBook now data = Returns r.
Proof.
  destruct r as [ob err]. intros Hr.
  destruct (bitstamp_go_parseOrderBook_cases now data ob err Hr)
    as [(e & -> & -> & Hp & _) | (m & ts & bids & asks & Hu & Ht & Hb & Ha & Hs)].
  - exact Hp.
  - destruct (parseOrderBook_reaches_sides now data m ts bids asks Hu Ht Hb Ha)
      as [_ E2].
    rewrite E2. exact Hs.
Qed.

End ParseOrderBookReturns.

(** The book of the example of the specification has two bids and one
    ask because its document has. *)
Lemma parseOrderBook_book_is_the_document_example :
  exists m ts bids asks,
    @Unmarshal_map offline
      (wire "{'bids':[['100.5','2'],['101','1']],'asks':[['102','3']]}") = (m, None)
    /\ @timestamp_of a_moment m ts
    /\ m !! "bids" = Some (JArray bids)
    /\ m !! "asks" = Some (JArray asks)
    /\ time.Unix 1700000123 0 = time.Unix ts 0
    /\ @Forall2 _ _ (@good_order offline) bids
         [ {| Price := 100.5; Amount := 2 |}; {| Price := 101; Amount := 1 |} ]
    /\ @Forall2 _ _ (@good_order offline) asks [ {| Price := 102; Amount := 3 |} ].
Proof.
  apply (@parseOrderBook_book_is_the_document offline a_moment
           (wire "{'bids':[['100.5','2'],['101','1']],'asks':[['102','3']]}")
           {| Time := time.Unix 1700000123 0;
              Asks := [ {| Price := 102; Amount := 3 |} ];
              Bids := [ {| Price := 100.5; Amount := 2 |};
                        {| Price := 101; Amount := 1 |} ] |}).
  left. vm_compute. reflexivity.
Defined.

(** A document with a price that is no number: an error and no book. *)
Lemma bitstamp_go_parseOrderBook_book_or_error_example :
  (exists book, @None OrderBook = Some book
                /\ Some (errors_Wrap (NumError "ParseFloat" "x" ErrSyntax)
                           "bids parsing error") = None)
  \/ (exists e, @None OrderBook = None
                /\ Some (errors_Wrap (NumError "ParseFloat" "x" ErrSyntax)
                           "bids parsing error") = Some e).
Proof.
  apply (@bitstamp_go_parseOrderBook_book_or_error offline a_moment bad_payload
           None
           (Some (errors_Wrap (NumError "ParseFloat" "x" ErrSyntax) "bids parsing error"))).
  vm_compute. reflexivity.
Defined.

(** The two files on the example of the specification. *)
Lemma part_000_parseOrderBook_extends_bitstamp_go_example :
  @part_000.parseOrderBook offline a_moment
    (wire "{'bids':[['100.5','2'],['101','1']],'asks':[['102','3']]}")
  = Returns (Some {| Time := time.Unix 1700000123 0;
                     Asks := [ {| Price := 102; Amount := 3 |} ];
                     Bids := [ {| Price := 100.5; Amount := 2 |};
                               {| Price := 101; Amount := 1 |} ] |}, None).
Proof.
  apply (@part_000_parseOrderBook_extends_bitstamp_go offline).
  vm_compute. reflexivity.
Defined.

(** ** A payload that does not decode, on the stream and over REST *)

Section DecodeFailures.
Context `{GoLib}.

(** [parseOrderBook] of [bitstamp.go] on any payload: a book, or an
    error, or a panic. *)
Lemma bitstamp_go_parseOrderBook_outcomes (now : time.Time) (data : string) :
  (exists book, bitstamp_go.parseOrderBook now data = Returns (Some book, None))
  \/ (exists e, bitstamp_go.parseOrderBook now data = Returns (None, Some e))
  \/ (exists p, bitstamp_go.parseOrderBook now data = Panics p).
Proof.
  destruct (bitstamp_go.parseOrderBook now data) as [[ob err]|p] eqn:Hr.
  - destruct (bitstamp_go_parseOrderBook_cases now data ob err Hr)
      as [(e & -> & -> & _) | (m & ts & bids & asks & _ & _ & _ & _ & Hs)].
    + right. left. exists e. reflexivity.
    + destruct (parse_sides_one_of _ bids asks ob err Hs)
        as [(book & -> & -> & _) | (e & -> & ->)].
      * left. exists book. reflexivity.
      * right. left. exists e. reflexivity.
  - right. right. exists p. reflexivity.
Qed.

(** [parseOrderBook] of [part_000] on any payload: a book, or an error,
    or a panic, or neither book nor error. *)
Lemma part_000_parseOrderBook_outcomes (now : time.Time) (data : string) :
  (exists book, part_000.parseOrderBook now data = Returns (Some book, None))
  \/ part_000.parseOrderBook now data = Returns (None, None)
  \/ (exists e, part_000.parseOrderBook now data = Returns (None, Some e))
  \/ (exists p, part_000.parseOrderBook now data = Panics p).
Proof.
  unfold part_000.parseOrderBook.
  destruct (Unmarshal_map data) as [m [e0|]].
  { right. right. left. exists e0. reflexivity. }
  destruct (read_timestamp now m None) as [ts err'|r] eqn:Et.
  - destruct (read_timestamp_GoOn_of now m ts err' Et) as [_ ->].
    destruct (index_map m "bids") as [| | | |bids|]; try (right; left; reflexivity).
    destruct (index_map m "asks") as [| | | |asks|]; try (right; left; reflexivity).
    destruct (parse_sides {| Time := time.Unix ts 0; Asks := []; Bids := [] |} bids asks)
      as [[ob err]|p] eqn:Hs.
    + destruct (parse_sides_one_of _ bids asks ob err Hs)
        as [(book & -> & -> & _) | (e & -> & ->)].
      * left. exists book. reflexivity.
      * right. right. left. exists e. reflexivity.
    + right. right. right. exists p. reflexivity.
  - destruct (read_timestamp_ReturnErr now m r Et) as [e ->].
    right. right. left. exists e. reflexivity.
Qed.

(** One iteration of the feed of [part_000] on a [data] event comes to
    what [parseOrderBook] comes to on its payload. *)
Lemma part_000_deliver_iter_data (now : time.Time) (symb : string) (ev : WsEvent)
    (b : string) (s : feed) :
  Event ev = "data" ->
  Marshal_RawMessage (Data ev) = (b, None) ->
  part_000.deliver_iter symb (part_000.FromStream now ev) s
  = ('(ob, err) ← part_000.parseOrderBook now b;
     match err with
     | None => ob ← deref ob; Returns (Delivering (send ob s))
     | Some _ => Returns (Delivering s)
     end).
Proof.
  intros Hev Hm. unfold part_000.deliver_iter. rewrite Hev, Hm. reflexivity.
Qed.

(** C9, as the code has it.  The same payload [b] arrives as a [data]
    event on the stream and as the body of the REST answer.  Whatever [b]
    is, [parseOrderBook] decodes it to a book, or returns an error and no
    book, or panics.  When it returns the error [e], the feed drops the
    event (its state is unchanged and the events that follow are handled)
    and [GetOrderBook] returns [e] to its caller.  When it panics with
    [p], the event is not dropped and no error is returned: the feed and
    [GetOrderBook] panic with [p], and the feed handles nothing after the
    event.  This holds in [part_000] and in [bitstamp.go]; [part_000] has
    a fourth outcome, neither book nor error, about which nothing is said
    here. *)
Theorem decode_failure_dropped_or_fatal
    (now : time.Time) (symb symbol : string) (ev : WsEvent) (b : string) :
  Event ev = "data" ->
  Marshal_RawMessage (Data ev) = (b, None) ->
  get ("/order_book/" +:+ symbol) = (b, None) ->
  ((exists book, part_000.parseOrderBook now b = Returns (Some book, None))
   \/ part_000.parseOrderBook now b = Returns (None, None)
   \/ (exists e,
         part_000.parseOrderBook now b = Returns (None, Some e)
         /\ dropped_by (part_000.deliver_iter symb) (part_000.deliver symb)
              (part_000.FromStream now ev)
         /\ part_000.GetOrderBook now symbol = Returns (None, Some e))
   \/ (exists p,
         part_000.parseOrderBook now b = Panics p
         /\ fatal_to (part_000.deliver_iter symb) (part_000.deliver symb)
              (part_000.FromStream now ev) p
         /\ part_000.GetOrderBook now symbol = Panics p))
  /\ ((exists book, bitstamp_go.parseOrderBook now b = Returns (Some book, None))
      \/ (exists e,
            bitstamp_go.parseOrderBook now b = Returns (None, Some e)
            /\ dropped_by bitstamp_go.deliver_iter bitstamp_go.deliver
                 (bitstamp_go.FromData now (Some b))
            /\ bitstamp_go.GetOrderBook now symbol = Returns (None, Some e))
      \/ (exists p,
            bitstamp_go.parseOrderBook now b = Panics p
            /\ fatal_to bitstamp_go.deliver_iter bitstamp_go.deliver
                 (bitstamp_go.FromData now (Some b)) p
            /\ bitstamp_go.GetOrderBook now symbol = Panics p)).
Proof.
  intros Hev Hm Hg. split.
  - destruct (part_000_parseOrderBook_outcomes now b)
      as [Hbook | [Hnone | [(e & He) | (p & Hp)]]].
    + left. exact Hbook.
    + right. left. exact Hnone.
    + right. right. left. exists e. split; [exact He|]. split.
      * intros s.
        assert (part_000.deliver_iter symb (part_000.FromStream now ev) s
                = Returns (Delivering s)) as Hi.
        { rewrite (part_000_deliver_iter_data now symb ev b s Hev Hm), He. reflexivity. }
        split; [exact Hi|].
        intros rest. cbn [part_000.deliver]. rewrite Hi. reflexivity.
      * unfold part_000.GetOrderBook. rewrite Hg. exact He.
    + right. right. right. exists p. split; [exact Hp|]. split.
      * intros s.
        assert (part_000.deliver_iter symb (part_000.FromStream now ev) s
                = Panics p) as Hi.
        { rewrite (part_000_deliver_iter_data now symb ev b s Hev Hm), Hp. reflexivity. }
        split; [exact Hi|].
        intros rest. cbn [part_000.deliver]. rewrite Hi. reflexivity.
      * unfold part_000.GetOrderBook. rewrite Hg. exact Hp.
  - destruct (bitstamp_go_parseOrderBook_outcomes now b)
      as [Hbook | [(e & He) | (p & Hp)]].
    + left. exact Hbook.
    + right. left. exists e. split; [exact He|]. split.
      * intros s.
        assert (bitstamp_go.deliver_iter (bitstamp_go.FromData now (Some b)) s
                = Returns (Delivering s)) as Hi.
        { unfold bitstamp_go.deliver_iter. rewrite He. reflexivity. }
        split; [exact Hi|].
        intros rest. cbn [bitstamp_go.deliver]. rewrite Hi. reflexivity.
      * unfold bitstamp_go.GetOrderBook. rewrite Hg. exact He.
    + right. right. exists p. split; [exact Hp|]. split.
      * intros s.
        assert (bitstamp_go.deliver_iter (bitstamp_go.FromData now (Some b)) s
                = Panics p) as Hi.
        { unfold bitstamp_go.deliver_iter. rewrite Hp. reflexivity. }
        split; [exact Hi|].
        intros rest. cbn [bitstamp_go.deliver]. rewrite Hi. reflexivity.
      * unfold bitstamp_go.GetOrderBook. rewrite Hg. exact Hp.
Qed.

End DecodeFailures.

(** A price that is no number is dropped by the feed of [part_000] and
    returned by [GetOrderBook] of [bitstamp.go]; a first bid without an
    amount makes both panic. *)
Lemma decode_failure_dropped_or_fatal_example :
  (@dropped_by _ (@part_000.deliver_iter (answering bad_payload) "btcusd")
     (@part_000.deliver (answering bad_payload) "btcusd")
     (part_000.FromStream a_moment (data_event bad_payload))
   /\ @bitstamp_go.GetOrderBook (answering bad_payload) a_moment "btcusd"
      = Returns (None, Some refused_price))
  /\ (@fatal_to _ (@part_000.deliver_iter (answering short_payload) "btcusd")
        (@part_000.deliver (answering short_payload) "btcusd")
        (part_000.FromStream a_moment (data_event short_payload))
        (IndexOutOfRange 1 1)
      /\ @bitstamp_go.GetOrderBook (answering short_payload) a_moment "btcusd"
         = Panics (IndexOutOfRange 1 1)).
Proof.
  split.
  - destruct (@decode_failure_dropped_or_fatal (answering bad_payload) a_moment
                "btcusd" "btcusd" (data_event bad_payload) bad_payload
                eq_refl
                ltac:(vm_compute; reflexivity)
                ltac:(vm_compute; reflexivity)) as [P B].
    split.
    + destruct P as [(book & E) | [E | [(e & _ & D & _) | (p & E & _)]]].
      * vm_compute in E. discriminate E.
      * vm_compute in E. discriminate E.
      * exact D.
      * vm_compute in E. discriminate E.
    + destruct B as [(book & E) | [(e & E & _ & G) | (p & E & _)]].
      * vm_compute in E. discriminate E.
      * vm_compute in E. injection E as <-. exact G.
      * vm_compute in E. discriminate E.
  - destruct (@decode_failure_dropped_or_fatal (answering short_payload) a_moment
                "btcusd" "btcusd" (data_event short_payload) short_payload
                eq_refl
                ltac:(vm_compute; reflexivity)
                ltac:(vm_compute; reflexivity)) as [P B].
    split.
    + destruct P as [(book & E) | [E | [(e & E & _) | (p & E & D & _)]]].
      * vm_compute in E. discriminate E.
      * vm_compute in E. discriminate E.
      * vm_compute in E. discriminate E.
      * vm_compute in E. injection E as <-. exact D.
    + destruct B as [(book & E) | [(e & E & _) | (p & E & _ & G)]].
      * vm_compute in E. discriminate E.
      * vm_compute in E. discriminate E.
      * vm_compute in E. injection E as <-. exact G.
Defined.

(** C9 as stated fails.  On a payload whose first bid has a price and no
    amount the decoder fails by panicking: the feed of [part_000] does
    not drop the event and go on, it panics, and [GetOrderBook] of
    [bitstamp.go] returns no error to its caller, it panics.  The same
    holds in [bitstamp.go] for a payload without [bids]. *)
Lemma decode_panic_is_neither_dropped_nor_returned :
  (@part_000.deliver_iter (answering short_payload) "btcusd"
     (part_000.FromStream a_moment (data_event short_payload)) idle
   = Panics (IndexOutOfRange 1 1)
   /\ @bitstamp_go.GetOrderBook (answering short_payload) a_moment "btcusd"
      = Panics (IndexOutOfRange 1 1))
  /\ (@bitstamp_go.deliver_iter (answering no_bids_payload)
        (bitstamp_go.FromData a_moment (Some no_bids_payload)) idle
      = Panics (InterfaceConversion "[]interface {}")
      /\ @bitstamp_go.GetOrderBook (answering no_bids_payload) a_moment "btcusd"
         = Panics (InterfaceConversion "[]interface {}")).
Proof.
  repeat split; vm_compute; reflexivity.
Qed.

(** [part_000] on the payload without [bids], where its
    [parseOrderBook] returns neither book nor error: the feed
    dereferences the nil book and [GetOrderBook] returns no error. *)
Lemma part_000_missing_bids_in_feed_and_rest :
  @part_000.deliver_iter (answering no_bids_payload) "btcusd"
     (part_000.FromStream a_moment (data_event no_bids_payload)) idle
  = Panics NilDereference
  /\ @part_000.GetOrderBook (answering no_bids_payload) a_moment "btcusd"
     = Returns (None, None).
Proof.
  split; vm_compute; reflexivity.
Qed.

(** ** What [formatTrades] returns *)

Section FormatTradesReturns.
Context `{GoLib}.

Lemma index_map_JString (m : gmap string JSON) (key s : string) :
  index_map m key = JString s -> m !! key = Some (JString s).
Proof.
  unfold index_map. destruct (m !! key) as [x|]; cbn; [intros ->; reflexivity|discriminate].
Qed.

Lemma field_string_or_not (m : gmap string JSON) (key : string) :
  (exists s, m !! key = Some (JString s)) \/ not_a_string (index_map m key).
Proof.
  destruct (string_or_not (index_map m key)) as [[s Hs] | Hn]; [left | right; exact Hn].
  exists s. apply index_map_JString. exact Hs.
Qed.

(** An element of the trade list decodes, or has a text that is refused,
    or makes the loop panic. *)
Lemma trade_kinds (x : JSON) :
  (exists t, good_trade x t) \/ (exists e, unparsable_trade x e) \/ ill_typed_trade x.
Proof.
  destruct x as [| b | f | s | l | m];
    try (right; right; apply ill_trade_not_object; intros m'; discriminate).
  destruct (field_string_or_not m "price") as [[p Hp] | Hn];
    [|right; right; apply ill_trade_price; exact Hn].
  destruct (ParseFloat p) as [fp [e|]] eqn:Fp.
  { right; left. exists e. eapply unparsable_trade_price; eassumption. }
  destruct (field_string_or_not m "amount") as [[a Ha] | Hn];
    [|right; right; eapply ill_trade_amount; eassumption].
  destruct (ParseFloat a) as [fa [e|]] eqn:Fa.
  { right; left. exists e. eapply unparsable_trade_amount; eassumption. }
  destruct (field_string_or_not m "date") as [[d Hd] | Hn];
    [|right; right; eapply ill_trade_date; eassumption].
  destruct (strconv.ParseInt d) as [ts [e|]] eqn:Fd.
  { right; left. exists e. eapply unparsable_trade_date; eassumption. }
  destruct (field_string_or_not m "tid") as [[tid Ht] | Hn];
    [|right; right; eapply ill_trade_tid; eassumption].
  left. eexists. eapply good_trade_intro; eassumption.
Qed.

(** A list of elements decodes as a whole, or has a first element that
    does not. *)
Lemma first_bad_trade (elems : list JSON) :
  (exists ts, Forall2 good_trade elems ts)
  \/ (exists pre bad post ts,
        elems = pre ++ bad :: post
        /\ Forall2 good_trade pre ts
        /\ ((exists e, unparsable_trade bad e) \/ ill_typed_trade bad)).
Proof.
  induction elems as [|x elems IH].
  - left. exists []. constructor.
  - destruct (trade_kinds x) as [[t Ht] | Hbad].
    + destruct IH as [[ts Hts] | (pre & bad & post & ts & -> & Hpre & Hbad)].
      * left. exists (t :: ts). constructor; assumption.
      * right. exists (x :: pre), bad, post, (t :: ts).
        split; [reflexivity|]. split; [constructor; assumption | exact Hbad].
    + right. exists [], x, elems, []. split; [reflexivity|]. split; [constructor | exact Hbad].
Qed.

(** X5.  On a body that is a JSON list, [formatTrades] returns the
    trades [ts] and no error exactly when every element is an object
    with the four string fields, the numbers of which parse, and [ts] are
    their trades in the order of the list. *)
Theorem formatTrades_succeeds_iff (body : string) (elems : list JSON) (ts : list Trade) :
  Unmarshal_slice body = (elems, None) ->
  formatTrades body = Returns (ts, None) <-> Forall2 good_trade elems ts.
Proof.
  intros Hu. split.
  - intros Hr.
    destruct (first_bad_trade elems)
      as [[ts' Hts'] | (pre & bad & post & ts' & -> & Hpre & Hbad)].
    + rewrite (formatTrades_good body elems ts' Hu Hts') in Hr.
      injection Hr as <-. exact Hts'.
    + rewrite (formatTrades_first body pre bad post ts' Hu Hpre) in Hr.
      destruct Hbad as [[e He] | Hill].
      * rewrite (formatTrades_range_unparsable bad e _ post _ He) in Hr. discriminate.
      * pose proof (formatTrades_range_ill_typed bad (length pre) post
                      (ts' ++ replicate (S (length post)) zero_Trade) Hill) as Hp.
        rewrite Hr in Hp. discriminate.
  - intros Hts. exact (formatTrades_good body elems ts Hu Hts).
Qed.

Lemma formatTrades_range_length (rest : list JSON) :
  forall (i : nat) (trades res : list Trade) (err : option error),
    formatTrades_range i rest trades = Returns (res, err) ->
    length res = length trades.
Proof.
  induction rest as [|x rest IH]; intros i trades res err Hr.
  - cbn in Hr. injection Hr as <- _. reflexivity.
  - destruct (trade_kinds x) as [[t Ht] | [[e He] | Hill]].
    + rewrite (formatTrades_range_step x t i rest trades Ht) in Hr.
      rewrite (IH _ _ _ _ Hr). apply length_insert.
    + rewrite (formatTrades_range_unparsable x e i rest trades He) in Hr.
      injection Hr as <- _. reflexivity.
    + pose proof (formatTrades_range_ill_typed x i rest trades Hill) as Hp.
      rewrite Hr in Hp. discriminate.
Qed.

(** X6.  On a body that is a JSON list, whatever [formatTrades] returns,
    with or without an error, is a slice of the length of the list. *)
Theorem formatTrades_keeps_length (body : string) (elems : list JSON)
    (trades : list Trade) (err : option error) :
  Unmarshal_slice body = (elems, None) ->
  formatTrades body = Returns (trades, err) ->
  length trades = length elems.
Proof.
  intros Hu. unfold formatTrades. rewrite Hu. intros Hr.
  rewrite (formatTrades_range_length _ _ _ _ _ Hr).
  apply length_replicate.
Qed.

(** X7.  When the request of [GetTrades] fails in transport with [e]:
    [bitstamp.go] does not look at [e] and decodes the empty body, so its
    caller gets the error of the JSON decoder; [part_000] returns [e]
    wrapped and decodes nothing.  [GetTradesParams] of both files returns
    the transport error as it is. *)
Theorem GetTrades_transport_failure (QueryEscape : string -> string)
    (symbol interval : string) (resp resp' : Response) (e e' ejson : error)
    (none : list JSON) :
  http_Get (API_URL +:+ "/transactions/" +:+ symbol) = (resp, Some e) ->
  http_Get (API_URL +:+ "/transactions/" +:+ symbol +:+ "/?" +:+ "time="
            +:+ QueryEscape interval) = (resp', Some e') ->
  Unmarshal_slice EmptyString = (none, Some ejson) ->
  bitstamp_go.GetTrades symbol = Returns ([], Some ejson)
  /\ part_000.GetTrades symbol
     = Returns ([], Some (errors_Wrap e "get transactions error"))
  /\ bitstamp_go.GetTradesParams QueryEscape symbol interval = Returns ([], Some e')
  /\ part_000.GetTradesParams QueryEscape symbol interval = Returns ([], Some e').
Proof.
  intros Hg Hg' Hj.
  unfold bitstamp_go.GetTrades, part_000.GetTrades,
    bitstamp_go.GetTradesParams, part_000.GetTradesParams, get.
  rewrite Hg, Hg'. unfold formatTrades. rewrite Hj. auto.
Qed.

End FormatTradesReturns.

(** The example of the specification, from its elements to its trade
    and back. *)
Lemma formatTrades_succeeds_iff_example :
  let body := wire "[{'price':'10','amount':'1','date':'1600000000','tid':'55'}]" in
  let trade :=
    {| Trade_Time := time.Unix 1600000000 0; ID := "55";
       Trade_Price := 10; Trade_Amount := 1 |} in
  @formatTrades offline body = Returns ([trade], None)
  <-> @Forall2 _ _ (@good_trade offline) (fst (@Unmarshal_slice offline body)) [trade].
Proof.
  apply (@formatTrades_succeeds_iff offline). vm_compute. reflexivity.
Defined.

(** Three elements on the wire, the second refused: three trades come
    back. *)
Lemma formatTrades_keeps_length_example :
  length [ {| Trade_Time := time.Unix 1600000000 0; ID := "55";
              Trade_Price := 10; Trade_Amount := 1 |}; zero_Trade; zero_Trade ]
  = length (fst (@Unmarshal_slice offline
      (wire ("[{'price':'10','amount':'1','date':'1600000000','tid':'55'},"
             +:+ "{'price':'zz','amount':'1','date':'1600000001','tid':'56'},"
             +:+ "{'price':'11','amount':'2','date':'1600000002','tid':'57'}]")))).
Proof.
  apply (@formatTrades_keeps_length offline
           (wire ("[{'price':'10','amount':'1','date':'1600000000','tid':'55'},"
                  +:+ "{'price':'zz','amount':'1','date':'1600000001','tid':'56'},"
                  +:+ "{'price':'11','amount':'2','date':'1600000002','tid':'57'}]"))
           _ _ (Some (NumError "ParseFloat" "zz" ErrSyntax))).
  - vm_compute. reflexivity.
  - vm_compute. reflexivity.
Defined.

(** A server that cannot be reached: [bitstamp.go] reports a JSON
    error, [part_000] the wrapped transport error. *)
Lemma GetTrades_transport_failure_example :
  let refused := LibError "dial tcp: connection refused" None in
  @bitstamp_go.GetTrades offline "btcusd"
    = Returns ([], Some (LibError "invalid JSON" None))
  /\ @part_000.GetTrades offline "btcusd"
     = Returns ([], Some (errors_Wrap refused "get transactions error"))
  /\ @bitstamp_go.GetTradesParams offline (fun s => s) "btcusd" "hour"
     = Returns ([], Some refused)
  /\ @part_000.GetTradesParams offline (fun s => s) "btcusd" "hour"
     = Returns ([], Some refused).
Proof.
  exact (@GetTrades_transport_failure offline (fun s => s) "btcusd" "hour"
           {| ReadAll_Body := (EmptyString, None) |}
           {| ReadAll_Body := (EmptyString, None) |}
           (LibError "dial tcp: connection refused" None)
           (LibError "dial tcp: connection refused" None)
           (LibError "invalid JSON" None) []
           eq_refl eq_refl eq_refl).
Defined.

(** ** Control frames *)

Section ControlFrames.

Lemma control_call_send_each (op : control) (channels : list string) (c : writer) :
  control_call op channels c = send_each (control_event op) channels c.
Proof.
  destruct op; reflexivity.
Qed.

Lemma having_written_nil (c : writer) :
  sendLock c = false -> having_written [] c = c.
Proof.
  destruct c as [l w f]. cbn. intros ->. unfold having_written. cbn.
  rewrite app_nil_r. reflexivity.
Qed.

Lemma having_written_app (a b : list (WsEvent * option error)) (c : writer) :
  having_written b (having_written a c) = having_written (a ++ b) c.
Proof.
  unfold having_written. cbn. rewrite app_assoc. reflexivity.
Qed.

Lemma send_each_step (event channel : string) (rest : list string) (c : writer) :
  sendLock c = false ->
  let sub := {| Event := event; Channel := EmptyString; Data := channel_payload channel |} in
  let err := WriteJSON c (length (written c)) sub in
  send_each event (channel :: rest) c
  = match err with
    | Some e => Done (having_written [(sub, err)] c, Some e)
    | None => send_each event rest (having_written [(sub, err)] c)
    end.
Proof.
  intros Hl. cbn. unfold sendEvent. rewrite Hl. unfold having_written.
  destruct (WriteJSON c _ _); reflexivity.
Qed.

(** X8.  When the lock is free and [WriteJSON] accepts the frame of
    every channel, [Subscribe] and [Unsubscribe] write one frame per
    channel, in the order of the channels, each with the event name of
    the request and the payload of its channel, return nil and leave the
    lock free. *)
Theorem control_call_writes_every_frame (op : control) (channels : list string)
    (c : writer) :
  sendLock c = false ->
  (forall (i : nat) (channel : string),
     channels !! i = Some channel ->
     WriteJSON c (length (written c) + i) (control_frame op channel) = None) ->
  control_call op channels c
  = Done (having_written ((fun channel => (control_frame op channel, None)) <$> channels) c,
          None).
Proof.
  rewrite control_call_send_each.
  revert c. induction channels as [|channel rest IH]; intros c Hl Hw.
  - cbn. rewrite having_written_nil by assumption. reflexivity.
  - rewrite send_each_step by assumption. cbn zeta.
    pose proof (Hw 0%nat channel eq_refl) as H0. rewrite Nat.add_0_r in H0.
    unfold control_frame in H0. rewrite H0.
    rewrite IH.
    + rewrite having_written_app. reflexivity.
    + reflexivity.
    + intros i ch Hi. cbn. rewrite length_app. cbn.
      replace (length (written c) + 1 + i)%nat with (length (written c) + S i)%nat by lia.
      apply Hw. exact Hi.
Qed.

(** X9.  When [WriteJSON] accepts the frames of the channels [done_] and
    refuses the frame of the next channel with [e], [Subscribe] and
    [Unsubscribe] return [e]; the frames of [done_] and the refused frame
    are the only calls of [WriteJSON], and the channels after it are not
    sent. *)
Theorem control_call_stops_at_first_error (op : control)
    (done_ : list string) (channel : string) (rest : list string)
    (c : writer) (e : error) :
  sendLock c = false ->
  (forall (i : nat) (ch : string),
     done_ !! i = Some ch ->
     WriteJSON c (length (written c) + i) (control_frame op ch) = None) ->
  WriteJSON c (length (written c) + length done_) (control_frame op channel) = Some e ->
  control_call op (done_ ++ channel :: rest) c
  = Done (having_written
            (((fun ch => (control_frame op ch, None)) <$> done_)
             ++ [(control_frame op channel, Some e)]) c,
          Some e).
Proof.
  rewrite control_call_send_each.
  revert c. induction done_ as [|ch0 done_ IH]; intros c Hl Hw He.
  - cbn [app fmap list_fmap length] in *. rewrite Nat.add_0_r in He.
    rewrite send_each_step by assumption. cbn zeta.
    unfold control_frame in He. rewrite He. reflexivity.
  - cbn [app]. rewrite send_each_step by assumption. cbn zeta.
    pose proof (Hw 0%nat ch0 eq_refl) as H0. rewrite Nat.add_0_r in H0.
    unfold control_frame in H0. rewrite H0.
    rewrite IH.
    + rewrite having_written_app. reflexivity.
    + reflexivity.
    + intros i ch Hi. cbn. rewrite length_app. cbn.
      replace (length (written c) + 1 + i)%nat with (length (written c) + S i)%nat by lia.
      apply Hw. exact Hi.
    + cbn. rewrite length_app. cbn. cbn in He.
      replace (length (written c) + 1 + length done_)%nat
        with (length (written c) + S (length done_))%nat by lia.
      exact He.
Qed.

(** X10.  A request for the channels [a ++ b] is the request for [a]
    followed, when that returned nil, by the request for [b]; when the
    request for [a] returns an error or waits for the lock, [b] is not
    sent. *)
Theorem control_call_app (op : control) (a b : list string) (c : writer) :
  control_call op (a ++ b) c
  = match control_call op a c with
    | Done (c', None) => control_call op b c'
    | other => other
    end.
Proof.
  rewrite (control_call_send_each op (a ++ b)), (control_call_send_each op a).
  revert c. induction a as [|channel a IH]; intros c.
  - cbn [app send_each]. rewrite control_call_send_each. reflexivity.
  - cbn [app send_each].
    destruct (sendEvent _ c) as [[c' [e|]]|]; try reflexivity.
    apply IH.
Qed.

End ControlFrames.

(** A connection that accepts every frame, and one that refuses the
    second call of [WriteJSON]. *)
Lemma control_call_writes_every_frame_example :
  let c := {| sendLock := false; written := []; WriteJSON := fun _ _ => None |} in
  Subscribe ["order_book_btcusd"; "order_book_ethusd"] c
  = Done ({| sendLock := false;
             written := [ (control_frame Sub "order_book_btcusd", None);
                          (control_frame Sub "order_book_ethusd", None) ];
             WriteJSON := fun _ _ => None |}, None).
Proof.
  apply (control_call_writes_every_frame Sub ["order_book_btcusd"; "order_book_ethusd"]
           {| sendLock := false; written := []; WriteJSON := fun _ _ => None |}).
  - reflexivity.
  - intros i channel Hi. reflexivity.
Defined.

Lemma control_call_stops_at_first_error_example :
  let broken := LibError "write: broken pipe" None in
  let refuse_second := fun (n : nat) (_ : WsEvent) =>
    if Nat.eqb n 1 then Some broken else None in
  let c := {| sendLock := false; written := []; WriteJSON := refuse_second |} in
  Unsubscribe ["a"; "b"; "c"] c
  = Done ({| sendLock := false;
             written := [ (control_frame Unsub "a", None);
                          (control_frame Unsub "b", Some broken) ];
             WriteJSON := refuse_second |}, Some broken).
Proof.
  apply (control_call_stops_at_first_error Unsub ["a"] "b" ["c"]
           {| sendLock := false; written := [];
              WriteJSON := fun (n : nat) (_ : WsEvent) =>
                if Nat.eqb n 1 then Some (LibError "write: broken pipe" None) else None |}
           (LibError "write: broken pipe" None)).
  - reflexivity.
  - intros [|i] ch Hi; [reflexivity | discriminate Hi].
  - reflexivity.
Defined.

(** ** The payload of a control frame *)

Lemma append_String (c : ascii) (s x : string) :
  String c s +:+ x = String c (s +:+ x).
Proof.
  reflexivity.
Qed.


Lemma string_body_plain (s rest : string) :
  plain_text s = true ->
  Reference.string_body (s +:+ dquote +:+ rest) = Some (s, rest).
Proof.
  induction s as [|c s IH]; intros Hs.
  - reflexivity.
  - cbn [plain_text] in Hs.
    apply andb_prop in Hs as [Hs Hrest]. apply andb_prop in Hs as [Hs H92].
    apply andb_prop in Hs as [H32 H34].
    rewrite append_String. cbn [Reference.string_body].
    apply negb_true_iff in H34, H92. rewrite H34, H92.
    apply Nat.leb_le in H32.
    destruct (Nat.ltb_spec (nat_of_ascii c) 32) as [Hlt|_]; [lia|].
    rewrite (IH Hrest). reflexivity.
Qed.

Lemma value_object (n : nat) (r : string) :
  Reference.value (S n) (String "{" (dquote +:+ r))
  = Reference.members n (dquote +:+ r) ∅.
Proof.
  reflexivity.
Qed.

Lemma members_field (n : nat) (r : string) (acc : gmap string JSON) :
  Reference.members (S n) (dquote +:+ r) acc
  = match Reference.string_body r with
    | Some (key, r1) =>
        match Reference.skip_ws r1 with
        | String ":" r2 =>
            match Reference.value n r2 with
            | Some (v, r3) =>
                match Reference.skip_ws r3 with
                | String "," r4 => Reference.members n r4 (<[key:=v]> acc)
                | String "}" r4 => Some (JObject (<[key:=v]> acc), r4)
                | _ => None
                end
            | None => None
            end
        | _ => None
        end
    | None => None
    end.
Proof.
  reflexivity.
Qed.

Lemma value_string (n : nat) (r : string) :
  Reference.value (S n) (dquote +:+ r)
  = match Reference.string_body r with
    | Some (str, r') => Some (JString str, r')
    | None => None
    end.
Proof.
  reflexivity.
Qed.

Lemma channel_payload_shape (channel : string) :
  channel_payload channel
  = String "{" (dquote +:+ "channel" +:+ dquote +:+ ":" +:+ dquote
                +:+ channel +:+ dquote +:+ "}").
Proof.
  reflexivity.
Qed.

(** X11.  For a channel name with no quote, backslash or control
    character, the payload [Subscribe] and [Unsubscribe] format is the
    JSON text of an object with the one field [channel], whose value is
    the name. *)
Theorem channel_payload_decodes (channel : string) :
  plain_text channel = true ->
  Reference.decode (channel_payload channel)
  = Some (JObject (<["channel" := JString channel]> ∅)).
Proof.
  intros Hp. unfold Reference.decode.
  assert (exists n, String.length (channel_payload channel) = S (S n)) as [n ->].
  { rewrite channel_payload_shape. unfold dquote.
    rewrite !append_String. cbn [String.length]. eauto. }
  rewrite channel_payload_shape.
  rewrite value_object, members_field.
  rewrite (string_body_plain "channel" _ eq_refl).
  change (Reference.skip_ws (":" +:+ dquote +:+ channel +:+ dquote +:+ "}"))
    with (String ":" (dquote +:+ channel +:+ dquote +:+ "}")).
  cbv beta iota.
  rewrite value_string.
  rewrite (string_body_plain channel "}" Hp).
  reflexivity.
Qed.

(** The payload for the order book of a market. *)
Lemma channel_payload_decodes_example :
  Reference.decode (channel_payload "order_book_btcusd")
  = Some (JObject (<["channel" := JString "order_book_btcusd"]> ∅)).
Proof.
  apply channel_payload_decodes. reflexivity.
Defined.

(** ** The read loop over whole schedules *)

Section ReadLoopSchedules.
Context `{GoLib}.

Lemma push_error_one_slot (note : string) (err : error) (c : WsClient) :
  cap (Errors c) = 1%nat ->
  (length (buf (Errors c)) <= 1)%nat ->
  cap (Errors (websocket_go.push_error note err c)) = 1%nat
  /\ (length (buf (Errors (websocket_go.push_error note err c))) <= 1)%nat.
Proof.
  intros Hcap Hlen. unfold websocket_go.push_error, try_send. rewrite Hcap.
  destruct (Nat.ltb_spec (length (buf (Errors c))) 1); cbn.
  - rewrite length_app. cbn. split; [first [reflexivity | exact Hcap] | lia].
  - split; [first [reflexivity | exact Hcap] | exact Hlen].
Qed.

Lemma step_one_slot (a : action) (s s' : system) :
  one_slot s ->
  step websocket_go.readLoop_iter websocket_go.Close a s = Some s' ->
  one_slot s'.
Proof.
  intros (Hcap & Hlen & Hloop) Hstep. destruct s as [c l].
  cbn [client loop] in Hcap, Hlen, Hloop.
  destruct a as [w | | |]; cbv beta iota delta [step client loop] in Hstep.
  - destruct l; try discriminate. injection Hstep as <-.
    unfold websocket_go.readLoop_iter.
    destruct (try_recv (done c)) as [[flag d]|].
    { repeat split; cbn; auto; discriminate. }
    destruct (ReadMessage w) as [message [err|]].
    + destruct (push_error_one_slot
                  "can't write to Errors chan read message err: " err c Hcap Hlen)
        as [Hc Hl].
      destruct (Temporary err) as [[|]|]; repeat split; cbn; auto; discriminate.
    + destruct (Unmarshal_WsEvent message) as [e [err|]].
      * destruct (push_error_one_slot
                    "can't write to Errors chan unmarshal err: " err c Hcap Hlen)
          as [Hc Hl].
        repeat split; cbn; auto; discriminate.
      * repeat split; cbn; auto; discriminate.
  - unfold websocket_go.Close in Hstep.
    destruct (try_send (done c) true); injection Hstep as <-;
      repeat split; cbn; auto.
  - destruct l; try (exfalso; eapply Hloop; reflexivity);
      unfold try_recv in Hstep; destruct (buf (Errors c)) as [|e0 rest] eqn:Eb;
      try discriminate; injection Hstep as <-;
      (repeat split; cbn; [exact Hcap | cbn in Hlen; lia | discriminate]).
  - destruct l; try discriminate. injection Hstep as <-.
    repeat split; cbn; auto; discriminate.
Qed.

(** X12.  In [websocket.go], after any schedule that starts from the
    client [NewWsClient] makes, [Errors] has one slot and holds at most
    one error, and the read loop is not waiting at a send on it. *)
Theorem Errors_holds_at_most_one (acts : list action) :
  let s := run websocket_go.readLoop_iter websocket_go.Close acts (running fresh) in
  cap (Errors (client s)) = 1%nat
  /\ (length (buf (Errors (client s))) <= 1)%nat
  /\ forall err, loop s <> Waiting_Errors err.
Proof.
  cbn zeta.
  assert (forall s, one_slot s ->
            one_slot (run websocket_go.readLoop_iter websocket_go.Close acts s)) as Hrun.
  { induction acts as [|a acts IH]; intros s Hs; [exact Hs|].
    cbn [run]. apply IH.
    destruct (step websocket_go.readLoop_iter websocket_go.Close a s) as [s'|] eqn:E.
    - cbn. eapply step_one_slot; eassumption.
    - exact Hs. }
  apply Hrun. repeat split; cbn; auto; discriminate.
Qed.

Lemma having_done_app (a b : list effect) (c : WsClient) :
  having_done b (having_done a c) = having_done (a ++ b) c.
Proof.
  unfold having_done. cbn. rewrite app_assoc. reflexivity.
Qed.

Lemma having_done_nil (c : WsClient) : having_done [] c = c.
Proof.
  destruct c. unfold having_done. cbn. rewrite app_nil_r. reflexivity.
Qed.

Lemma run_cons (iter : world -> WsClient -> outcome)
    (close : WsClient -> blocking WsClient)
    (a : action) (rest : list action) (s s' : system) :
  step iter close a s = Some s' ->
  run iter close (a :: rest) s = run iter close rest s'.
Proof.
  intros E. cbn [run]. rewrite E. reflexivity.
Qed.

Lemma run_read_and_receive (iter : world -> WsClient -> outcome)
    (close : WsClient -> blocking WsClient)
    (w : world) (e : WsEvent) (rest : list action) (c : WsClient) :
  iter w c = AtSend_Stream c e ->
  run iter close (RunLoop w :: RecvStream :: rest) (running c)
  = run iter close rest (running (having_done [Streamed e] c)).
Proof.
  intros Hi.
  assert (step iter close (RunLoop w) (running c)
          = Some {| client := c; loop := Waiting_Stream e |}) as E1.
  { unfold step, running. cbn [client loop]. rewrite Hi. reflexivity. }
  assert (step iter close RecvStream {| client := c; loop := Waiting_Stream e |}
          = Some (running (having_done [Streamed e] c))) as E2 by reflexivity.
  rewrite (run_cons _ _ _ _ _ _ E1), (run_cons _ _ _ _ _ _ E2). reflexivity.
Qed.

Lemma readLoop_iter_reads (message : string) (e : WsEvent) (c : WsClient) :
  buf (done c) = [] ->
  Unmarshal_WsEvent message = (e, None) ->
  websocket_go.readLoop_iter (reading message) c = AtSend_Stream c e
  /\ part_001.readLoop_iter (reading message) c = AtSend_Stream c e.
Proof.
  intros Hd He.
  unfold websocket_go.readLoop_iter, part_001.readLoop_iter.
  rewrite (try_recv_empty _ Hd). cbn [reading ReadMessage]. rewrite He.
  split; reflexivity.
Qed.

(** X13.  With no shutdown flag pending, when the loop reads frames that
    all decode and a consumer receives from [Stream] after each, the
    events are handed over in the order the frames were read, one for
    each frame, and nothing else happens; this holds in [websocket.go]
    and in [part_001]. *)
Theorem Stream_delivers_in_order (messages : list string) (events : list WsEvent)
    (c : WsClient) :
  buf (done c) = [] ->
  Forall2 (fun message e => Unmarshal_WsEvent message = (e, None)) messages events ->
  run websocket_go.readLoop_iter websocket_go.Close (read_and_receive messages) (running c)
    = running (having_done (Streamed <$> events) c)
  /\ run part_001.readLoop_iter part_001.Close (read_and_receive messages) (running c)
    = running (having_done (Streamed <$> events) c).
Proof.
  intros Hd Hall. revert c Hd.
  induction Hall as [|message e messages events He _ IH]; intros c Hd.
  - cbn. rewrite having_done_nil. split; reflexivity.
  - destruct (IH (having_done [Streamed e] c) Hd) as [IH1 IH2].
    rewrite having_done_app in IH1, IH2.
    destruct (readLoop_iter_reads message e c Hd He) as [R1 R2].
    change (read_and_receive (message :: messages))
      with (RunLoop (reading message) :: RecvStream :: read_and_receive messages).
    rewrite (run_read_and_receive _ _ _ e _ c R1).
    rewrite (run_read_and_receive _ _ _ e _ c R2).
    split; [exact IH1 | exact IH2].
Qed.

(** X14.  In [websocket.go], after any schedule that leaves the loop
    running, a [Close] followed by one iteration of the loop ends the
    loop: whatever the connection would have delivered is not read, the
    connection is released, this being its only release, and [Errors] and
    the sleeps are as they were. *)
Theorem Close_ends_loop_at_next_iteration (acts : list action) (w : world) :
  let s := run websocket_go.readLoop_iter websocket_go.Close acts (running fresh) in
  loop s = Running ->
  let s' := run websocket_go.readLoop_iter websocket_go.Close [CallClose; RunLoop w] s in
  loop s' = Returned
  /\ ws_Close_count (client s') = 1%nat
  /\ buf (done (client s')) = []
  /\ Errors (client s') = Errors (client s)
  /\ sleeps (client s') = sleeps (client s).
Proof.
  cbn zeta. intros Hrun.
  destruct (run_released_once acts (running fresh)) as [Hflag Hcount].
  { split; [split; [reflexivity | left; reflexivity] | reflexivity]. }
  destruct (run websocket_go.readLoop_iter websocket_go.Close acts (running fresh))
    as [c l].
  cbn [client loop] in *. subst l.
  destruct (Close_completes c Hflag) as (c1 & E & Hc & He & Hcap & Hbuf).
  assert (sleeps c1 = sleeps c) as Hsl.
  { revert E. unfold websocket_go.Close.
    destruct (try_send (done c) true); intros [= <-]; [reflexivity|].
    unfold sleeps, emit. cbn. rewrite omap_app. cbn. apply app_nil_r. }
  assert (step websocket_go.readLoop_iter websocket_go.Close CallClose
            {| client := c; loop := Running |}
          = Some {| client := c1; loop := Running |}) as E1.
  { unfold step. cbn [client loop]. rewrite E. reflexivity. }
  assert (step websocket_go.readLoop_iter websocket_go.Close (RunLoop w)
            {| client := c1; loop := Running |}
          = Some {| client := emit ws_Closed
                                (set_done {| cap := cap (done c1); buf := [] |} c1);
                    loop := Returned |}) as E2.
  { unfold step. cbn [client loop].
    rewrite (readLoop_iter_sees_flag w c1 Hbuf). reflexivity. }
  rewrite (run_cons _ _ _ _ _ _ E1), (run_cons _ _ _ _ _ _ E2).
  cbn [run client loop].
  repeat split.
  - rewrite ws_Close_count_emit. cbn [is_ws_Closed].
    change (ws_Close_count (set_done _ c1)) with (ws_Close_count c1). lia.
  - exact He.
  - unfold sleeps, emit. cbn. rewrite omap_app. cbn. rewrite app_nil_r. exact Hsl.
Qed.

End ReadLoopSchedules.

(** Two frames read and received, in both files. *)
Lemma Stream_delivers_in_order_example :
  run (@websocket_go.readLoop_iter offline) websocket_go.Close
    (read_and_receive two_frames) (running fresh)
    = running (having_done (Streamed <$> two_events) fresh)
  /\ run (@part_001.readLoop_iter offline) part_001.Close
      (read_and_receive two_frames) (running fresh)
    = running (having_done (Streamed <$> two_events) fresh).
Proof.
  apply (@Stream_delivers_in_order offline two_frames two_events fresh).
  - reflexivity.
  - unfold two_frames, two_events.
    constructor; [vm_compute; reflexivity|].
    constructor; [vm_compute; reflexivity|].
    constructor.
Defined.

(** [Close] during a run of timeouts. *)
Lemma Close_ends_loop_at_next_iteration_example :
  let s' := run (@websocket_go.readLoop_iter offline) websocket_go.Close
              [RunLoop (failing_read timeout_error); CallClose;
               RunLoop (failing_read timeout_error)] (running fresh) in
  loop s' = Returned
  /\ ws_Close_count (client s') = 1%nat
  /\ buf (done (client s')) = []
  /\ Errors (client s') = {| cap := 1; buf := [timeout_error] |}
  /\ sleeps (client s') = [100000000].
Proof.
  exact (@Close_ends_loop_at_next_iteration offline
           [RunLoop (failing_read timeout_error)] (failing_read timeout_error) eq_refl).
Defined.

(** ** The feed over whole runs *)

Section FeedRuns.
Context `{GoLib}.











End FeedRuns.


